(** * Domain checker: rate limiting, statistics and batch checking

    A shallow embedding of [src/db.ts] and [src/index.ts] (the libsql
    backed worker) and of the variant of the worker that keeps its state
    in KV namespaces, followed by the properties of the rate limiter, the
    statistics counters and the batch checker.

    Conventions.
    - JavaScript numbers that hold counters and millisecond timestamps
      are integers well inside the exactly representable range; they are
      modelled as [Z].
    - A table with a [PRIMARY KEY] text column is a finite map from the
      key to the remaining columns ([gmap string _]); a table that has
      not been created yet is [None].
    - A statement is modelled by its parametrised form, with the values
      the program binds or splices into its text as arguments.
    - Every [client.execute] may throw.  Connectivity failures are driven
      by a fault schedule carried in the world: each call consumes one
      flag and throws when the flag is [true].  A statement also throws
      when SQLite would reject it (missing table, primary key clash).
    - Every effectful function returns its outcome (a value or a thrown
      error), the world it leaves behind and the list of store and
      network events it performed, in program order. *)

From Stdlib Require Import ZArith List Bool Lia.
From stdpp Require Import gmap strings list fin_maps.
Import ListNotations.

Local Open Scope string_scope.
Local Open Scope Z_scope.

(** ** The persisted schema *)

(** A row of [stats]; the [id] column is the key of the table. *)
Record Stats := mkStats {
  total_requests : Z;
  total_domains_checked : Z;
  blocked_domains : Z;
  not_blocked_domains : Z;
  error_domains : Z;
  last_reset : Z;
  unique_users : string
}.

(** A row of [rate_limits]; the [ip] column is the key of the table. *)
Record RateLimit := mkRateLimit {
  count : Z;
  timestamp : Z
}.

(** What the program runs on.

    [double_quoted_strings]: the statements of src/db.ts on [stats] write
    the id "global" and the seeded "[]" between double quotes.  SQLite
    reads a double-quoted token as the name of a column and falls back to a
    string only where its legacy option for double-quoted strings is on;
    the libsql that @libsql/client brings along has it off.

    [createClient_error]: what [createClient] throws for a URL and a token,
    [None] where it returns a client.

    [tick]: the reading of the clock once a statement has been awaited, from
    the reading before. *)
Record Platform := mkPlatform {
  double_quoted_strings : bool;
  createClient_error : string → string → option string;
  tick : Z → Z
}.

Record Database := mkDatabase {
  stats_table : option (gmap string Stats);
  rate_limits_table : option (gmap string RateLimit);
  platform : Platform
}.

(** The counters an [UPDATE stats SET ...] can touch. *)
Inductive Column :=
| col_total_requests
| col_total_domains_checked
| col_blocked_domains
| col_not_blocked_domains
| col_error_domains.

(** The SQL statements the program issues. *)
Inductive Stmt :=
| CreateStatsTable
| SelectStatsId
| SelectStatsAll
| InsertDefaultStats (now : Z)
| UpdateStats (updates : list (Column * Z))
| CreateRateLimitsTable
| DeleteExpiredRateLimits (windowStart : Z)
| SelectRateLimit (ip : string)
| InsertRateLimit (ip : string) (cnt ts : Z)
| UpdateRateLimit (ip : string) (cnt ts : Z).

(** [result.rows[0]] of a statement. *)
Inductive Rows :=
| NoRow
| StatsRow (row : Stats)
| RateLimitRow (row : RateLimit).

Definition default_row (now : Z) : Stats :=
  mkStats 0 0 0 0 0 now "[]".

(** [col = col + n] on one row. *)
Definition bump (row : Stats) (u : Column * Z) : Stats :=
  let n := snd u in
  match fst u with
  | col_total_requests =>
      mkStats (total_requests row + n) (total_domains_checked row)
        (blocked_domains row) (not_blocked_domains row) (error_domains row)
        (last_reset row) (unique_users row)
  | col_total_domains_checked =>
      mkStats (total_requests row) (total_domains_checked row + n)
        (blocked_domains row) (not_blocked_domains row) (error_domains row)
        (last_reset row) (unique_users row)
  | col_blocked_domains =>
      mkStats (total_requests row) (total_domains_checked row)
        (blocked_domains row + n) (not_blocked_domains row) (error_domains row)
        (last_reset row) (unique_users row)
  | col_not_blocked_domains =>
      mkStats (total_requests row) (total_domains_checked row)
        (blocked_domains row) (not_blocked_domains row + n) (error_domains row)
        (last_reset row) (unique_users row)
  | col_error_domains =>
      mkStats (total_requests row) (total_domains_checked row)
        (blocked_domains row) (not_blocked_domains row) (error_domains row + n)
        (last_reset row) (unique_users row)
  end.

Definition row_of_stats (o : option Stats) : Rows :=
  match o with Some r => StatsRow r | None => NoRow end.

Definition row_of_rate_limit (o : option RateLimit) : Rows :=
  match o with Some r => RateLimitRow r | None => NoRow end.

(** [timestamp < windowStart] is what the purge deletes; the rows that stay
    are those with [windowStart <= timestamp]. *)
Definition purge (windowStart : Z) (t : gmap string RateLimit)
  : gmap string RateLimit :=
  filter (λ kv : string * RateLimit, windowStart ≤ timestamp kv.2) t.

(** The statement writes "global" between double quotes. *)
Definition writes_global (s : Stmt) : bool :=
  match s with
  | SelectStatsId | SelectStatsAll | InsertDefaultStats _ | UpdateStats _ => true
  | _ => false
  end.

(** What the store does with a statement: [None] when it rejects it.  The
    statements on [rate_limits] are those of src/unnamed/part_001, which
    binds their arguments.  A statement that writes "global" between double
    quotes is rejected where double-quoted tokens are not read as strings:
    no column of [stats] has that name. *)
Definition run_stmt (s : Stmt) (d : Database) : option (Database * Rows) :=
  if writes_global s && negb (double_quoted_strings (platform d)) then None
  else
  match s with
  | CreateStatsTable =>
      match stats_table d with
      | Some _ => Some (d, NoRow)
      | None => Some (mkDatabase (Some ∅) (rate_limits_table d) (platform d), NoRow)
      end
  | SelectStatsId | SelectStatsAll =>
      t ← stats_table d; Some (d, row_of_stats (t !! "global"))
  | InsertDefaultStats now =>
      t ← stats_table d;
      match t !! "global" with
      | Some _ => None
      | None =>
          Some (mkDatabase (Some (<["global" := default_row now]> t))
                  (rate_limits_table d) (platform d), NoRow)
      end
  | UpdateStats updates =>
      t ← stats_table d;
      Some (mkDatabase (Some (alter (λ row, fold_left bump updates row) "global" t))
              (rate_limits_table d) (platform d), NoRow)
  | CreateRateLimitsTable =>
      match rate_limits_table d with
      | Some _ => Some (d, NoRow)
      | None => Some (mkDatabase (stats_table d) (Some ∅) (platform d), NoRow)
      end
  | DeleteExpiredRateLimits windowStart =>
      t ← rate_limits_table d;
      Some (mkDatabase (stats_table d) (Some (purge windowStart t)) (platform d),
            NoRow)
  | SelectRateLimit ip =>
      t ← rate_limits_table d; Some (d, row_of_rate_limit (t !! ip))
  | InsertRateLimit ip cnt ts =>
      t ← rate_limits_table d;
      match t !! ip with
      | Some _ => None
      | None =>
          Some (mkDatabase (stats_table d) (Some (<[ip := mkRateLimit cnt ts]> t))
                  (platform d), NoRow)
      end
  | UpdateRateLimit ip cnt ts =>
      t ← rate_limits_table d;
      Some (mkDatabase (stats_table d)
              (Some (alter (λ _, mkRateLimit cnt ts) ip t)) (platform d), NoRow)
  end.

(** ** Effects *)

Inductive Event :=
| Executed (s : Stmt) (ok : bool)
| Fetched (query : string)
| KvGet (namespace key : string) (ok : bool)
| KvPut (namespace key : string) (ok : bool).

Inductive Outcome (A : Type) :=
| Returned (a : A)
| Thrown (message : string).
Arguments Returned {A} a.
Arguments Thrown {A} message.

Record Run (W A : Type) := mkRun {
  outcome : Outcome A;
  world : W;
  events : list Event
}.
Arguments mkRun {W A} outcome world events.
Arguments outcome {W A} r.
Arguments world {W A} r.
Arguments events {W A} r.

(** A computation over a world of type [W]. *)
Definition M (W A : Type) : Type := W → Run W A.

Definition ret {W A} (a : A) : M W A := λ w, mkRun (Returned a) w [].

Definition throw {W A} (message : string) : M W A :=
  λ w, mkRun (Thrown message) w [].

Definition bind {W A B} (m : M W A) (k : A → M W B) : M W B :=
  λ w,
    match m w with
    | mkRun (Returned a) w1 ev1 =>
        match k a w1 with
        | mkRun o w2 ev2 => mkRun o w2 (ev1 ++ ev2)
        end
    | mkRun (Thrown e) w1 ev1 => mkRun (Thrown e) w1 ev1
    end.

(** [try { m } catch (error) { handler error }] *)
Definition try_catch {W A} (m : M W A) (handler : string → M W A) : M W A :=
  λ w,
    match m w with
    | mkRun (Returned a) w1 ev1 => mkRun (Returned a) w1 ev1
    | mkRun (Thrown e) w1 ev1 =>
        match handler e w1 with
        | mkRun o w2 ev2 => mkRun o w2 (ev1 ++ ev2)
        end
    end.

Declare Scope js_scope.
Delimit Scope js_scope with js.
Notation "x <- m ;; k" := (bind m (λ x, k))
  (at level 100, m at next level, right associativity) : js_scope.
Notation "m ;; k" := (bind m (λ _, k))
  (at level 100, right associativity) : js_scope.
Local Open Scope js_scope.

(** The world of the libsql backed worker. *)
Record World := mkWorld {
  database : Database;
  client : bool;          (* the module level [client] is non-null *)
  faults : list bool;     (* connectivity of the coming [execute] calls *)
  clock : Z               (* what [Date.now()] returns *)
}.

Definition Date_now : M World Z := λ w, mkRun (Returned (clock w)) w [].

Definition set_database (d : Database) (w : World) : World :=
  mkWorld d (client w) (faults w) (clock w).

(** The world once a statement has been awaited: the clock has moved on and
    the fault schedule is [fs]. *)
Definition set_faults (fs : list bool) (w : World) : World :=
  mkWorld (database w) (client w) fs (tick (platform (database w)) (clock w)).

(** [await client.execute(stmt)] *)
Definition execute (s : Stmt) : M World Rows :=
  λ w,
    match faults w with
    | true :: fs =>
        mkRun (Thrown "store unavailable") (set_faults fs w) [Executed s false]
    | fs =>
        let w1 := set_faults (tail fs) w in
        match run_stmt s (database w) with
        | Some (d, rows) => mkRun (Returned rows) (set_database d w1) [Executed s true]
        | None => mkRun (Thrown "SQLITE_ERROR") w1 [Executed s false]
        end
    end.

(** ** src/db.ts *)

Record Env := mkEnv {
  DATABASE_URL : string;
  DATABASE_AUTH_TOKEN : option string
}.

(** A string in a condition: [undefined] and the empty string are falsy. *)
Definition truthy_string (o : option string) : bool :=
  match o with
  | Some s => negb (String.eqb s "")
  | None => false
  end.

(** [initializeDbClient]: the module level [client] is created once and
    reused. *)
Definition initializeDbClient (env : Env) : M World unit :=
  λ w,
    if client w then ret tt w
    else if String.eqb (DATABASE_URL env) "" then
      throw "DATABASE_URL is required" w
    else if negb (truthy_string (DATABASE_AUTH_TOKEN env)) then
      throw "DATABASE_AUTH_TOKEN is required" w
    else
      match createClient_error (platform (database w)) (DATABASE_URL env)
              (default "" (DATABASE_AUTH_TOKEN env)) with
      | Some message => throw ("Database connection failed: " +:+ message) w
      | None =>
          mkRun (Returned tt) (mkWorld (database w) true (faults w) (clock w)) []
      end.

Definition stats_of (r : Rows) : option Stats :=
  match r with StatsRow row => Some row | _ => None end.

Definition rate_limit_of (r : Rows) : option RateLimit :=
  match r with RateLimitRow row => Some row | _ => None end.

Definition initializeTables (env : Env) : M World unit :=
  initializeDbClient env ;;
  try_catch
    (execute CreateStatsTable ;;
     statsResult <- execute SelectStatsId ;;
     match stats_of statsResult with
     | None =>
         now <- Date_now ;;
         execute (InsertDefaultStats now) ;;
         ret tt
     | Some _ => ret tt
     end ;;
     execute CreateRateLimitsTable ;;
     ret tt)
    (λ error, throw error).

(** [Number(x) || fallback] *)
Definition number_or (x fallback : Z) : Z :=
  if x =? 0 then fallback else x.

(** [s || fallback] on strings *)
Definition string_or (s fallback : string) : string :=
  if String.eqb s "" then fallback else s.

Definition getStats (env : Env) : M World Stats :=
  initializeDbClient env ;;
  defaultStats <- (now <- Date_now ;; ret (default_row now)) ;;
  try_catch
    (result <- execute SelectStatsAll ;;
     match stats_of result with
     | None =>
         now <- Date_now ;;
         execute (InsertDefaultStats now) ;;
         ret defaultStats
     | Some stats =>
         ret (mkStats
                (number_or (total_requests stats) (total_requests defaultStats))
                (number_or (total_domains_checked stats)
                   (total_domains_checked defaultStats))
                (number_or (blocked_domains stats) (blocked_domains defaultStats))
                (number_or (not_blocked_domains stats)
                   (not_blocked_domains defaultStats))
                (number_or (error_domains stats) (error_domains defaultStats))
                (number_or (last_reset stats) (last_reset defaultStats))
                (string_or (unique_users stats) (unique_users defaultStats)))
     end)
    (λ error, throw ("Failed to get stats: " +:+ error)).

(** The argument of [incrementStats]: every field is optional. *)
Record StatsDelta := mkStatsDelta {
  requests : option Z;
  domainsChecked : option Z;
  blocked : option Z;
  notBlocked : option Z;
  errors : option Z
}.

(** [if (stats.field) updates.push(`col = col + ${stats.field}`)] *)
Definition push_if (col : Column) (field : option Z) : list (Column * Z) :=
  match field with
  | Some n => if n =? 0 then [] else [(col, n)]
  | None => []
  end.

Definition incrementStats (env : Env) (stats : StatsDelta) : M World unit :=
  initializeDbClient env ;;
  let updates :=
    (push_if col_total_requests (requests stats)
     ++ push_if col_total_domains_checked (domainsChecked stats)
     ++ push_if col_blocked_domains (blocked stats)
     ++ push_if col_not_blocked_domains (notBlocked stats)
     ++ push_if col_error_domains (errors stats))%list in
  if (0 <? length updates)%nat then
    try_catch
      (result <- execute SelectStatsId ;;
       match stats_of result with
       | None =>
           now <- Date_now ;;
           execute (InsertDefaultStats now) ;;
           ret tt
       | Some _ => ret tt
       end ;;
       execute (UpdateStats updates) ;;
       ret tt)
      (λ error, throw ("Failed to increment stats: " +:+ error))
  else ret tt.

Record RateLimitResult := mkRateLimitResult {
  allowed : bool;
  remaining : Z;
  resetTime : Z
}.

(** [checkRateLimit] with the ip, the count and the time bound as arguments
    of its statements, as src/unnamed/part_001 writes them.  src/db.ts
    writes the same values into the text of the statements; that version is
    [Spliced.checkRateLimit] below, and the two agree where the store reads
    the ip as the text it is ([spliced_checkRateLimit_read_as_text]). *)
Definition checkRateLimit (env : Env) (ip : string)
    (domainCount maxDomains windowMinutes : Z) : M World RateLimitResult :=
  initializeDbClient env ;;
  now <- Date_now ;;
  let windowStart := now - windowMinutes * 60 * 1000 in
  try_catch
    (execute (DeleteExpiredRateLimits windowStart) ;;
     result <- execute (SelectRateLimit ip) ;;
     match rate_limit_of result with
     | None =>
         if maxDomains <? domainCount then
           ret (mkRateLimitResult false maxDomains
                  (now + windowMinutes * 60 * 1000))
         else
           execute (InsertRateLimit ip domainCount now) ;;
           ret (mkRateLimitResult true (maxDomains - domainCount)
                  (now + windowMinutes * 60 * 1000))
     | Some usage =>
         let totalCount := count usage + domainCount in
         if maxDomains <? totalCount then
           ret (mkRateLimitResult false (maxDomains - count usage)
                  (timestamp usage + windowMinutes * 60 * 1000))
         else
           execute (UpdateRateLimit ip totalCount now) ;;
           ret (mkRateLimitResult true (maxDomains - totalCount)
                  (now + windowMinutes * 60 * 1000))
     end)
    (λ _, ret (mkRateLimitResult true (maxDomains - domainCount)
                 (now + windowMinutes * 60 * 1000))).

(** *** The rate limiter of src/db.ts

    [checkRateLimit] above issues its statements as src/unnamed/part_001
    does, with the arguments bound.  src/db.ts writes them into the text
    instead, the ip between double quotes, and the store reads a token
    there: the name of a column if it is one; else a string, where
    double-quoted tokens are read as strings, and nothing the store can
    resolve where they are not.  An ip that holds a double quote ends the
    token early and is read as SQL from there on. *)

Module Spliced.

(** The names a token can stand for in a statement on [rate_limits], the
    implicit row id included; SQLite compares names without regard to
    case. *)
Definition column_names : list string :=
  ["ip"; "count"; "timestamp"; "rowid"; "oid"; "_rowid_"].

Definition lower_ascii (c : Ascii.ascii) : Ascii.ascii :=
  let n := Ascii.nat_of_ascii c in
  if ((65 <=? n) && (n <=? 90))%nat then Ascii.ascii_of_nat (n + 32) else c.

Fixpoint lower (s : string) : string :=
  match s with
  | EmptyString => EmptyString
  | String c s' => String (lower_ascii c) (lower s')
  end.

Fixpoint holds_quote (s : string) : bool :=
  match s with
  | EmptyString => false
  | String c s' => Ascii.eqb c (Ascii.ascii_of_nat 34) || holds_quote s'
  end.

(** The ip is read as the text it is, or not at all: it holds no double
    quote and names no column. *)
Definition plain (ip : string) : bool :=
  negb (holds_quote ip) && negb (existsb (String.eqb (lower ip)) column_names).

Section Store.

(** What the store makes of a statement of src/db.ts whose ip is not
    plain. *)
Variable reads_as : Stmt → Database → option (Database * Rows).

(** What the store does with a statement that has [ip] written into it. *)
Definition run_spliced (ip : string) (s : Stmt) (d : Database)
  : option (Database * Rows) :=
  if plain ip then
    if double_quoted_strings (platform d) then run_stmt s d else None
  else reads_as s d.

(** [await client.execute(`... "${ip}" ...`)] *)
Definition execute_spliced (ip : string) (s : Stmt) : M World Rows :=
  λ w,
    match faults w with
    | true :: fs =>
        mkRun (Thrown "store unavailable") (set_faults fs w) [Executed s false]
    | fs =>
        let w1 := set_faults (tail fs) w in
        match run_spliced ip s (database w) with
        | Some (d, rows) => mkRun (Returned rows) (set_database d w1) [Executed s true]
        | None => mkRun (Thrown "SQLITE_ERROR") w1 [Executed s false]
        end
    end.

(** [checkRateLimit] of src/db.ts.  The purge has no ip in its text. *)
Definition checkRateLimit (env : Env) (ip : string)
    (domainCount maxDomains windowMinutes : Z) : M World RateLimitResult :=
  initializeDbClient env ;;
  now <- Date_now ;;
  let windowStart := now - windowMinutes * 60 * 1000 in
  try_catch
    (execute (DeleteExpiredRateLimits windowStart) ;;
     result <- execute_spliced ip (SelectRateLimit ip) ;;
     match rate_limit_of result with
     | None =>
         if maxDomains <? domainCount then
           ret (mkRateLimitResult false maxDomains
                  (now + windowMinutes * 60 * 1000))
         else
           execute_spliced ip (InsertRateLimit ip domainCount now) ;;
           ret (mkRateLimitResult true (maxDomains - domainCount)
                  (now + windowMinutes * 60 * 1000))
     | Some usage =>
         let totalCount := count usage + domainCount in
         if maxDomains <? totalCount then
           ret (mkRateLimitResult false (maxDomains - count usage)
                  (timestamp usage + windowMinutes * 60 * 1000))
         else
           execute_spliced ip (UpdateRateLimit ip totalCount now) ;;
           ret (mkRateLimitResult true (maxDomains - totalCount)
                  (now + windowMinutes * 60 * 1000))
     end)
    (λ _, ret (mkRateLimitResult true (maxDomains - domainCount)
                 (now + windowMinutes * 60 * 1000))).

End Store.

End Spliced.

(** ** JavaScript values

    The bodies the lookup service answers with and the value the stats
    endpoint puts under [uniqueUsers] are dynamically typed. *)

#[local] Unset Elimination Schemes.
Inductive JsVal :=
| VUndefined
| VNull
| VBool (b : bool)
| VNum (n : Z)
| VStr (s : string)
| VFunction
| VArray (items : list JsVal)
| VObject (props : list (string * JsVal)).
#[local] Set Elimination Schemes.

(** A value in a condition. *)
Definition truthy (v : JsVal) : bool :=
  match v with
  | VUndefined | VNull => false
  | VBool b => b
  | VNum n => negb (n =? 0)
  | VStr s => negb (String.eqb s "")
  | VFunction | VArray _ | VObject _ => true
  end.

Definition typeof (v : JsVal) : string :=
  match v with
  | VUndefined => "undefined"
  | VNull | VArray _ | VObject _ => "object"
  | VBool _ => "boolean"
  | VNum _ => "number"
  | VStr _ => "string"
  | VFunction => "function"
  end.

(** What [fetch] resolves to.  [body = None]: [response.json()] rejects. *)
Inductive FetchOutcome :=
| NetworkError
| Response (ok : bool) (statusText : string) (body : option JsVal).

Module DomainCheckResult.
Record t := mk {
  originalUrl : string;
  status : string;
  blocked : JsVal;
  error : bool
}.
End DomainCheckResult.

(** The bodies [c.json] is called with. *)
Inductive Body :=
| body_error (error : string)
| body_error_details (error details : string)
| body_rate_limited (error : string) (remaining resetTime : Z)
| body_results (results : list DomainCheckResult.t) (remaining resetTime : Z)
| body_stats (totalRequests totalDomainsChecked blockedDomains
                notBlockedDomains errorDomains lastReset : Z)
             (uniqueUsers : JsVal)
| body_message (message : string) (status : Z).

Record HttpResponse := json {
  http_body : Body;
  http_status : Z
}.

(** [body.domains] once the request body has been parsed. *)
Inductive DomainsField :=
| domains_falsy                       (* missing, null, 0, the empty string *)
| domains_not_array                   (* truthy and not an array *)
| domains_array (l : list string).

(** The bindings of the worker. *)
Record Bindings := mkBindings {
  binding_DATABASE_URL : string;
  binding_DATABASE_AUTH_TOKEN : option string;
  dev : option (string * string)
}.

Inductive Route := POST_check | GET_stats_data.

Record Request := mkRequest {
  route : Route;
  req_json : option DomainsField;     (* [None]: [c.req.json()] rejects, or
                                         the body has no properties to read *)
  CF_Connecting_IP : option string;
  req_env : Bindings
}.

(** ** src/index.ts *)

Definition RATE_LIMIT_MAX_DOMAINS : Z := 1000.
Definition RATE_LIMIT_WINDOW_MINUTES : Z := 10.
Definition MAX_DOMAINS_PER_REQUEST : Z := 100.
Definition batchSize : nat := 30.

(** [a || b] on strings that may be undefined. *)
Definition or_string (a : option string) (b : string) : string :=
  if truthy_string a then default b a else b.

Definition getEnvVars (env : Bindings) : Env :=
  mkEnv
    (or_string (fst <$> dev env) (binding_DATABASE_URL env))
    (if truthy_string (snd <$> dev env) then snd <$> dev env
     else binding_DATABASE_AUTH_TOKEN env).

(** The handler hands [c.env] itself to the database functions, which read
    its top level [DATABASE_URL] and [DATABASE_AUTH_TOKEN]. *)
Definition c_env (env : Bindings) : Env :=
  mkEnv (binding_DATABASE_URL env) (binding_DATABASE_AUTH_TOKEN env).

(** [domains.slice(i, j)] *)
Definition slice {A} (i j : nat) (l : list A) : list A :=
  take (j - i) (drop i l).

(** The running totals of the handler's loop. *)
Record Tally := mkTally {
  results : list DomainCheckResult.t;
  processed : Z;
  n_blocked : Z;
  n_notBlocked : Z;
  n_errors : Z
}.

Definition count_result (acc : Tally) (result : DomainCheckResult.t) : Tally :=
  if DomainCheckResult.error result then
    mkTally (results acc) (processed acc + 1) (n_blocked acc)
      (n_notBlocked acc) (n_errors acc + 1)
  else if truthy (DomainCheckResult.blocked result) then
    mkTally (results acc) (processed acc + 1) (n_blocked acc + 1)
      (n_notBlocked acc) (n_errors acc)
  else
    mkTally (results acc) (processed acc + 1) (n_blocked acc)
      (n_notBlocked acc + 1) (n_errors acc).

Definition push_results (acc : Tally) (batchResults : list DomainCheckResult.t)
  : Tally :=
  mkTally (results acc ++ batchResults) (processed acc) (n_blocked acc)
    (n_notBlocked acc) (n_errors acc).

Section Worker.

(** [v[key]]: a property read, prototype chain included. *)
Variable get : JsVal → string → JsVal.

(** [JSON.parse]; [None] when it throws. *)
Variable JSON_parse : string → option JsVal.

(** The lookup service: what the [n]-th batch of a request is answered
    with, given the value of the [domains] query parameter. *)
Variable api : nat → string → FetchOutcome.

Definition fetch {W} (n : nat) (query : string) : M W FetchOutcome :=
  λ w,
    match api n query with
    | NetworkError => mkRun (Thrown "fetch failed") w [Fetched query]
    | r => mkRun (Returned r) w [Fetched query]
    end.

Definition is_object (v : JsVal) : bool :=
  truthy v && String.eqb (typeof v) "object".

Definition error_result (message domain : string) : DomainCheckResult.t :=
  DomainCheckResult.mk domain message (VBool false) true.

(** [checkBatch].  The [try] around the body of the [map] callback cannot
    be left through its [catch]: reading a property of a parsed JSON object
    does not throw. *)
Definition checkBatch {W} (n : nat) (domains : list string)
  : M W (list DomainCheckResult.t) :=
  try_catch
    (response <- fetch n (String.concat "," domains) ;;
     match response with
     | NetworkError => throw "fetch failed"
     | Response ok statusText body =>
         if negb ok then throw ("API request failed: " +:+ statusText)
         else
           match body with
           | None => throw "Unexpected token in JSON"
           | Some data =>
               if negb (is_object data) then throw "Invalid API response format"
               else
                 ret (map
                        (λ domain,
                           let result := get data domain in
                           if negb (is_object result) then
                             error_result "Error: Invalid response" domain
                           else
                             DomainCheckResult.mk domain
                               (if truthy (get result "blocked")
                                then "Blocked" else "Not Blocked")
                               (get result "blocked") false)
                        domains)
           end
     end)
    (λ _, ret (map (error_result "Error: API request failed") domains)).

(** The [for] loop of the handler; [fuel] bounds the number of rounds and
    [i] is the loop variable. *)
Fixpoint check_loop (fuel : nat) (i : nat) (domains : list string) (acc : Tally)
  : M World Tally :=
  match fuel with
  | O => ret acc
  | S fuel' =>
      if (i <? length domains)%nat then
        let batch := slice i (i + batchSize) domains in
        batchResults <- checkBatch (i / batchSize) batch ;;
        check_loop fuel' (i + batchSize) domains
          (push_results (fold_left count_result batchResults acc) batchResults)
      else ret acc
  end.

Definition check_handler (c : Request) : M World HttpResponse :=
  match req_json c with
  | None => throw "Unexpected end of JSON input"
  | Some field =>
      let domains :=
        match field with domains_falsy => domains_array [] | d => d end in
      let ip := or_string (CF_Connecting_IP c) "unknown" in
      match domains with
      | domains_falsy | domains_not_array =>
          ret (json (body_error "Invalid request: domains must be an array") 400)
      | domains_array domains =>
          if MAX_DOMAINS_PER_REQUEST <? Z.of_nat (length domains) then
            ret (json (body_error "Maximum 100 domains per request") 400)
          else
            try_catch
              (rateLimit <- checkRateLimit (c_env (req_env c)) ip
                              (Z.of_nat (length domains))
                              RATE_LIMIT_MAX_DOMAINS RATE_LIMIT_WINDOW_MINUTES ;;
               if negb (allowed rateLimit) then
                 ret (json (body_rate_limited "Rate limit exceeded"
                              (remaining rateLimit) (resetTime rateLimit)) 429)
               else
                 tally <- check_loop (length domains) 0 domains
                            (mkTally [] 0 0 0 0) ;;
                 incrementStats (c_env (req_env c))
                   (mkStatsDelta (Some 1) (Some (processed tally))
                      (Some (n_blocked tally)) (Some (n_notBlocked tally))
                      (Some (n_errors tally))) ;;
                 ret (json (body_results (results tally) (remaining rateLimit)
                              (resetTime rateLimit)) 200))
              (λ _, ret (json (body_error "Internal server error") 500))
      end
  end.

Definition stats_data_handler (c : Request) : M World HttpResponse :=
  try_catch
    (stats <- getStats (getEnvVars (req_env c)) ;;
     match JSON_parse (unique_users stats) with
     | None => throw "Unexpected token in JSON"
     | Some uniqueUsers =>
         ret (json (body_stats (total_requests stats)
                      (total_domains_checked stats) (blocked_domains stats)
                      (not_blocked_domains stats) (error_domains stats)
                      (last_reset stats) uniqueUsers) 200)
     end)
    (λ error, ret (json (body_error_details "Failed to get stats" error) 500)).

(** [app.onError]: what the framework answers when a handler or a
    middleware throws. *)
Definition onError (m : M World HttpResponse) : M World HttpResponse :=
  try_catch m (λ _, ret (json (body_message "Internal Server Error" 500) 500)).

(** The first middleware.  Both routes modelled here are API endpoints, for
    which a failure of [initializeTables] ends the request with status 500.
    [next] is the rest of the chain, which the framework guards with
    [onError], so that the [catch] only ever sees [initializeTables]. *)
Definition database_middleware (c : Request) (next : M World HttpResponse)
  : M World HttpResponse :=
  try_catch
    (initializeTables (getEnvVars (req_env c)) ;;
     next)
    (λ error, ret (json (body_error_details "Database error" error) 500)).

Definition stats_middleware (c : Request) (next : M World HttpResponse)
  : M World HttpResponse :=
  match route c with
  | POST_check =>
      try_catch
        (incrementStats (getEnvVars (req_env c))
           (mkStatsDelta (Some 1) None None None None))
        (λ _, ret tt)
  | GET_stats_data => ret tt
  end ;;
  next.

Definition handler (c : Request) : M World HttpResponse :=
  match route c with
  | POST_check => check_handler c
  | GET_stats_data => stats_data_handler c
  end.

(** The application: the middleware chain in registration order, every
    stage guarded by [onError].  The [logger] and [cors] middlewares only
    call [next] as far as the store and the response body are concerned. *)
Definition app (c : Request) : M World HttpResponse :=
  onError (database_middleware c
    (onError (stats_middleware c
      (onError (handler c))))).

End Worker.

(** ** The key-value backed worker

    The variant of the worker that keeps its state in two KV namespaces and
    mirrors it in module level caches.  [initializeStats] hands out the
    cached object itself, so every update its callers make to [stats] is an
    update of [statsCache]; the model updates the cache in place.  The
    values of a namespace are the JSON texts of the records; they are kept
    as records.  The periodic flush registered with [setInterval] runs
    outside request handling and is not part of the model. *)

Module KV.

Record RateLimitData := mkRateLimitData {
  count : Z;
  timestamp : Z
}.

Record StatsData := mkStatsData {
  totalRequests : Z;
  totalDomainsChecked : Z;
  uniqueUsers : list string;
  blockedDomains : Z;
  notBlockedDomains : Z;
  errorDomains : Z;
  lastReset : Z
}.

Record World := mkWorld {
  statsCache : option StatsData;
  rateLimitCache : gmap string RateLimitData;
  STATS_STORE : gmap string StatsData;
  RATE_LIMIT_STORE : gmap string (RateLimitData * Z);   (* value, TTL *)
  faults : list bool;
  clock : Z
}.

Record RateLimitResult := mkRateLimitResult {
  allowed : bool;
  remaining : Z;
  resetTime : Z
}.

Record Result := mkResult {
  originalUrl : string;
  status : string
}.

Inductive Body :=
| body_error (error : string)
| body_rate_limited (error : string) (rateLimitExceeded : bool)
    (remaining resetTime : Z)
| body_domains (domains : list Result) (remaining resetTime : Z)
| body_stats (totalRequests totalDomainsChecked uniqueUsers blockedDomains
                notBlockedDomains errorDomains lastReset : Z)
             (rateLimit_max rateLimit_window : Z)
| body_message (message : string) (status : Z).

Record HttpResponse := json {
  http_body : Body;
  http_status : Z
}.

Record Request := mkRequest {
  route : Route;
  req_json : option DomainsField;
  cf_connecting_ip : option string;
  x_forwarded_for : option string
}.

Definition BATCH_SIZE : nat := 30.
Definition RATE_LIMIT_MAX_DOMAINS : Z := 1000.
Definition RATE_LIMIT_WINDOW_MINUTES : Z := 10.

Definition Date_now : M World Z := λ w, mkRun (Returned (clock w)) w [].

Definition set_faults (fs : list bool) (w : World) : World :=
  mkWorld (statsCache w) (rateLimitCache w) (STATS_STORE w)
    (RATE_LIMIT_STORE w) fs (clock w).

(** [await c.env.STATS_STORE.get(key)] *)
Definition STATS_STORE_get (key : string) : M World (option StatsData) :=
  λ w,
    match faults w with
    | true :: fs =>
        mkRun (Thrown "KV GET failed") (set_faults fs w)
          [KvGet "STATS_STORE" key false]
    | fs =>
        mkRun (Returned (STATS_STORE w !! key)) (set_faults (tail fs) w)
          [KvGet "STATS_STORE" key true]
    end.

(** [await c.env.STATS_STORE.put(key, JSON.stringify(value))] *)
Definition STATS_STORE_put (key : string) (value : StatsData) : M World unit :=
  λ w,
    match faults w with
    | true :: fs =>
        mkRun (Thrown "KV PUT failed") (set_faults fs w)
          [KvPut "STATS_STORE" key false]
    | fs =>
        mkRun (Returned tt)
          (mkWorld (statsCache w) (rateLimitCache w)
             (<[key := value]> (STATS_STORE w)) (RATE_LIMIT_STORE w)
             (tail fs) (clock w))
          [KvPut "STATS_STORE" key true]
    end.

(** [await c.env.RATE_LIMIT_STORE.put(key, JSON.stringify(value),
    { expirationTtl })] *)
Definition RATE_LIMIT_STORE_put (key : string) (value : RateLimitData)
    (expirationTtl : Z) : M World unit :=
  λ w,
    match faults w with
    | true :: fs =>
        mkRun (Thrown "KV PUT failed") (set_faults fs w)
          [KvPut "RATE_LIMIT_STORE" key false]
    | fs =>
        mkRun (Returned tt)
          (mkWorld (statsCache w) (rateLimitCache w) (STATS_STORE w)
             (<[key := (value, expirationTtl)]> (RATE_LIMIT_STORE w))
             (tail fs) (clock w))
          [KvPut "RATE_LIMIT_STORE" key true]
    end.

(** [statsCache = value] *)
Definition set_statsCache (value : StatsData) : M World unit :=
  λ w,
    mkRun (Returned tt)
      (mkWorld (Some value) (rateLimitCache w) (STATS_STORE w)
         (RATE_LIMIT_STORE w) (faults w) (clock w)) [].

(** An update of the object [statsCache] refers to. *)
Definition update_stats (f : StatsData → StatsData) : M World unit :=
  λ w,
    mkRun (Returned tt)
      (mkWorld (f <$> statsCache w) (rateLimitCache w) (STATS_STORE w)
         (RATE_LIMIT_STORE w) (faults w) (clock w)) [].

(** [rateLimitCache[key] = usage] *)
Definition set_rateLimitCache (key : string) (usage : RateLimitData)
  : M World unit :=
  λ w,
    mkRun (Returned tt)
      (mkWorld (statsCache w) (<[key := usage]> (rateLimitCache w))
         (STATS_STORE w) (RATE_LIMIT_STORE w) (faults w) (clock w)) [].

Definition initializeStats : M World StatsData :=
  λ w,
    match statsCache w with
    | Some stats => ret stats w
    | None =>
        (stats <- STATS_STORE_get "global_stats" ;;
         match stats with
         | None =>
             now <- Date_now ;;
             let initialStats := mkStatsData 0 0 [] 0 0 0 now in
             STATS_STORE_put "global_stats" initialStats ;;
             set_statsCache initialStats ;;
             ret initialStats
         | Some stats =>
             set_statsCache stats ;;
             ret stats
         end) w
    end.

Definition stats_middleware (c : Request) (next : M World HttpResponse)
  : M World HttpResponse :=
  match route c with
  | POST_check =>
      initializeStats ;;
      update_stats (λ stats,
        mkStatsData (totalRequests stats + 1) (totalDomainsChecked stats)
          (uniqueUsers stats) (blockedDomains stats) (notBlockedDomains stats)
          (errorDomains stats) (lastReset stats))
  | GET_stats_data => ret tt
  end ;;
  next.

Definition checkRateLimit (ip : string) (domainCount : Z)
  : M World RateLimitResult :=
  let key := "rate_limit:" +:+ ip in
  now <- Date_now ;;
  let windowStart := now - RATE_LIMIT_WINDOW_MINUTES * 60 * 1000 in
  λ w,
    let fresh :=
      let usage := mkRateLimitData domainCount now in
      set_rateLimitCache key usage ;;
      RATE_LIMIT_STORE_put key usage (RATE_LIMIT_WINDOW_MINUTES * 60) ;;
      ret (mkRateLimitResult (domainCount <=? RATE_LIMIT_MAX_DOMAINS)
             (RATE_LIMIT_MAX_DOMAINS - domainCount)
             (now + RATE_LIMIT_WINDOW_MINUTES * 60 * 1000)) in
    match rateLimitCache w !! key with
    | None => fresh w
    | Some usage =>
        if timestamp usage <? windowStart then fresh w
        else
          let totalCount := count usage + domainCount in
          if RATE_LIMIT_MAX_DOMAINS <? totalCount then
            ret (mkRateLimitResult false
                   (RATE_LIMIT_MAX_DOMAINS - count usage)
                   (timestamp usage + RATE_LIMIT_WINDOW_MINUTES * 60 * 1000)) w
          else
            let usage' := mkRateLimitData totalCount (timestamp usage) in
            (set_rateLimitCache key usage' ;;
             RATE_LIMIT_STORE_put key usage' (RATE_LIMIT_WINDOW_MINUTES * 60) ;;
             ret (mkRateLimitResult true
                    (RATE_LIMIT_MAX_DOMAINS - totalCount)
                    (timestamp usage' + RATE_LIMIT_WINDOW_MINUTES * 60 * 1000))) w
    end.

Section Worker.

Variable get : JsVal → string → JsVal.
Variable api : nat → string → FetchOutcome.

Definition checkBatch (n : nat) (domains : list string) : M World (list Result) :=
  try_catch
    (response <- fetch api n (String.concat "," domains) ;;
     match response with
     | NetworkError => throw "fetch failed"
     | Response ok statusText body =>
         if negb ok then throw ("API request failed: " +:+ statusText)
         else
           match body with
           | None => throw "Unexpected token in JSON"
           | Some data =>
               if negb (is_object data) then throw "Invalid API response format"
               else
                 ret (map
                        (λ domain,
                           let result := get data domain in
                           if negb (is_object result) then
                             mkResult domain "Error: Invalid response"
                           else
                             mkResult domain
                               (if truthy (get result "blocked")
                                then "Blocked" else "Not Blocked"))
                        domains)
           end
     end)
    (λ _, ret (map (λ domain, mkResult domain "Error: API request failed")
                 domains)).

Fixpoint check_loop (fuel : nat) (i : nat) (domains : list string)
    (results : list Result) : M World (list Result) :=
  match fuel with
  | O => ret results
  | S fuel' =>
      if (i <? length domains)%nat then
        let batch := slice i (i + BATCH_SIZE) domains in
        batchResults <- checkBatch (i / BATCH_SIZE) batch ;;
        check_loop fuel' (i + BATCH_SIZE) domains (results ++ batchResults)
      else ret results
  end.

(** The callback of [results.forEach]. *)
Definition count_status (stats : StatsData) (result : Result) : StatsData :=
  if String.eqb (status result) "Blocked" then
    mkStatsData (totalRequests stats) (totalDomainsChecked stats)
      (uniqueUsers stats) (blockedDomains stats + 1) (notBlockedDomains stats)
      (errorDomains stats) (lastReset stats)
  else if String.eqb (status result) "Not Blocked" then
    mkStatsData (totalRequests stats) (totalDomainsChecked stats)
      (uniqueUsers stats) (blockedDomains stats) (notBlockedDomains stats + 1)
      (errorDomains stats) (lastReset stats)
  else
    mkStatsData (totalRequests stats) (totalDomainsChecked stats)
      (uniqueUsers stats) (blockedDomains stats) (notBlockedDomains stats)
      (errorDomains stats + 1) (lastReset stats).

Definition check_handler (c : Request) : M World HttpResponse :=
  try_catch
    (match req_json c with
     | None => throw "Unexpected end of JSON input"
     | Some (domains_falsy | domains_not_array) =>
         ret (json (body_error "Invalid domains format") 400)
     | Some (domains_array domains) =>
         if (length domains =? 0)%nat then
           ret (json (body_error "No domains provided") 400)
         else
           let ip :=
             or_string (cf_connecting_ip c)
               (or_string (x_forwarded_for c) "unknown") in
           initializeStats ;;
           update_stats (λ stats,
             mkStatsData (totalRequests stats)
               (totalDomainsChecked stats + Z.of_nat (length domains))
               (if existsb (String.eqb ip) (uniqueUsers stats)
                then uniqueUsers stats else uniqueUsers stats ++ [ip])
               (blockedDomains stats) (notBlockedDomains stats)
               (errorDomains stats) (lastReset stats)) ;;
           rateLimit <- checkRateLimit ip (Z.of_nat (length domains)) ;;
           if negb (allowed rateLimit) then
             ret (json (body_rate_limited "Rate limit exceeded" true
                          (remaining rateLimit) (resetTime rateLimit)) 429)
           else
             results <- check_loop (length domains) 0 domains [] ;;
             update_stats (λ stats, fold_left count_status results stats) ;;
             ret (json (body_domains results (remaining rateLimit)
                          (resetTime rateLimit)) 200)
     end)
    (λ _, ret (json (body_error "Failed to process domains") 500)).

Definition stats_data_handler : M World HttpResponse :=
  stats <- initializeStats ;;
  ret (json (body_stats (totalRequests stats) (totalDomainsChecked stats)
               (Z.of_nat (length (uniqueUsers stats))) (blockedDomains stats)
               (notBlockedDomains stats) (errorDomains stats) (lastReset stats)
               RATE_LIMIT_MAX_DOMAINS RATE_LIMIT_WINDOW_MINUTES) 200).

Definition onError (m : M World HttpResponse) : M World HttpResponse :=
  try_catch m (λ _, ret (json (body_message "Internal Server Error" 500) 500)).

Definition handler (c : Request) : M World HttpResponse :=
  match route c with
  | POST_check => check_handler c
  | GET_stats_data => stats_data_handler
  end.

Definition app (c : Request) : M World HttpResponse :=
  onError (stats_middleware c (onError (handler c))).

End Worker.

End KV.

(** ** Notions used in the statements *)

(** The coming [n] calls of [execute] do not hit a connectivity failure. *)
Fixpoint healthy (n : nat) (fs : list bool) : bool :=
  match n, fs with
  | O, _ => true
  | S _, [] => true
  | S k, b :: fs' => negb b && healthy k fs'
  end.

(** The length of a rate limit window, in milliseconds. *)
Definition window (windowMinutes : Z) : Z := windowMinutes * 60 * 1000.

(** The top-up rule with the window origin kept: the stored count becomes
    the total, the stored timestamp stays what it was, and the call answers
    with a reset time of [now + window]. *)
Definition top_up_keeps_window_origin (env : Env) (ip : string)
    (d maxD win : Z) (w : World) : Prop :=
  ∀ t usage,
    rate_limits_table (database w) = Some t →
    t !! ip = Some usage →
    clock w - window win ≤ timestamp usage →
    count usage + d ≤ maxD →
    let r := checkRateLimit env ip d maxD win w in
    outcome r =
      Returned (mkRateLimitResult true (maxD - (count usage + d))
                  (clock w + window win))
    ∧ ∃ t', rate_limits_table (database (world r)) = Some t'
            ∧ t' !! ip = Some (mkRateLimit (count usage + d) (timestamp usage)).

(** The same rule for the key-value backed [checkRateLimit]. *)
Definition kv_top_up_keeps_window_origin (ip : string) (d : Z) (w : KV.World)
  : Prop :=
  ∀ usage,
    KV.rateLimitCache w !! ("rate_limit:" +:+ ip) = Some usage →
    KV.clock w - window KV.RATE_LIMIT_WINDOW_MINUTES ≤ KV.timestamp usage →
    KV.count usage + d ≤ KV.RATE_LIMIT_MAX_DOMAINS →
    let r := KV.checkRateLimit ip d w in
    outcome r =
      Returned (KV.mkRateLimitResult true
                  (KV.RATE_LIMIT_MAX_DOMAINS - (KV.count usage + d))
                  (KV.clock w + window KV.RATE_LIMIT_WINDOW_MINUTES))
    ∧ KV.rateLimitCache (world r) !! ("rate_limit:" +:+ ip) =
        Some (KV.mkRateLimitData (KV.count usage + d) (KV.timestamp usage)).

Definition example_env : Env := mkEnv "libsql://example.turso.io" (Some "token").

(** A store that reads double-quoted tokens as strings, as SQLite does with
    its legacy option on; its client library accepts every URL and no time
    passes while it answers. *)
Definition legacy_platform : Platform :=
  mkPlatform true (λ _ _, None) (λ t, t).

(** The libsql that @libsql/client brings along: a double-quoted token is
    the name of a column.  A statement takes a millisecond. *)
Definition libsql_platform : Platform :=
  mkPlatform false (λ _ _, None) (λ t, t + 1).

(** A store in which the client 203.0.113.7 has used 5 domains of a window
    opened at time 1000; the clock reads 2000. *)
Definition world_with_entry : World :=
  mkWorld
    (mkDatabase (Some {["global" := default_row 0]})
       (Some {["203.0.113.7" := mkRateLimit 5 1000]}) legacy_platform)
    true [] 2000.

Definition kv_world_with_entry : KV.World :=
  KV.mkWorld None {["rate_limit:203.0.113.7" := KV.mkRateLimitData 5 1000]}
    ∅ ∅ [] 2000.

(** Every stored count is at most [maxD]. *)
Definition counts_bounded (maxD : Z) (d : Database) : Prop :=
  ∀ t ip usage,
    rate_limits_table d = Some t → t !! ip = Some usage → count usage ≤ maxD.






Definition fresh_world : World :=
  mkWorld (mkDatabase None None legacy_platform) false [] 5000.

(** [n] further runs of [initializeTables], one after the other. *)
Fixpoint initializeTables_times (n : nat) (env : Env) (w : World) : World :=
  match n with
  | O => w
  | S k => initializeTables_times k env (world (initializeTables env w))
  end.

(** The failures of a lookup request: the request itself fails, the status
    is not a success status, the body is not JSON, or the body is not an
    object in the sense of [typeof]. *)
Definition lookup_failed (o : FetchOutcome) : bool :=
  match o with
  | NetworkError => true
  | Response ok _ body =>
      negb ok
      || match body with
         | None => true
         | Some data => negb (is_object data)
         end
  end.

(** The own properties of a parsed JSON value; of two entries with one key
    the later one counts.  A runtime's property read agrees with it on
    every key that is not inherited. *)
Definition own_property (v : JsVal) (key : string) : JsVal :=
  match v with
  | VObject props =>
      match find (λ kv : string * JsVal, String.eqb (fst kv) key) (rev props) with
      | Some kv => snd kv
      | None => VUndefined
      end
  | _ => VUndefined
  end.

(** A lookup service that knows two domains. *)
Definition mock_api (n : nat) (query : string) : FetchOutcome :=
  Response true "OK"
    (Some (VObject [("good.com", VObject [("blocked", VBool false)]);
                    ("bad.com", VObject [("blocked", VBool true)])])).

(** A lookup service that is down. *)
Definition failing_api (n : nat) (query : string) : FetchOutcome :=
  Response false "Service Unavailable" None.

(** The database client exists already or can be created from [env]. *)
Definition connectable (env : Env) (w : World) : bool :=
  client w
  || (negb (String.eqb (DATABASE_URL env) "")
      && truthy_string (DATABASE_AUTH_TOKEN env)).

(** A database client exists already, or [env] passes the two checks and
    [createClient] returns a client for it. *)
Definition connects (env : Env) (w : World) : bool :=
  client w
  || (negb (String.eqb (DATABASE_URL env) "")
      && truthy_string (DATABASE_AUTH_TOKEN env)
      && bool_decide (createClient_error (platform (database w))
                        (DATABASE_URL env)
                        (default "" (DATABASE_AUTH_TOKEN env)) = None)).

Definition example_bindings : Bindings :=
  mkBindings "libsql://example.turso.io" (Some "token") None.

(** A store on which [initializeTables] has run at time 4000 and nothing
    else; the clock reads 5000. *)
Definition seeded_world : World :=
  mkWorld (mkDatabase (Some {["global" := default_row 4000]}) (Some ∅) legacy_platform) true []
    5000.

Definition post_check (domains : list string) : Request :=
  mkRequest POST_check (Some (domains_array domains)) (Some "203.0.113.7")
    example_bindings.

Definition get_stats_data : Request :=
  mkRequest GET_stats_data None (Some "203.0.113.7") example_bindings.

(** [total_requests] of the row "global". *)
Definition stored_total_requests (w : World) : option Z :=
  row ← stats_table (database w) ≫= (.!! "global"); Some (total_requests row).

(** The entry of a client in [rate_limits]. *)
Definition stored_rate_limit (ip : string) (w : World) : option RateLimit :=
  rate_limits_table (database w) ≫= (.!! ip).

(** A [JSON.parse] for the one text this program stores in [unique_users];
    it stands in for the runtime's where a concrete run is evaluated. *)
Definition parse_empty_array (s : string) : option JsVal :=
  if String.eqb s "[]" then Some (VArray []) else None.

(** Every [stats] row has the [unique_users] text it was seeded with. *)
Definition no_user_recorded (d : Database) : Prop :=
  ∀ ts id row,
    stats_table d = Some ts → ts !! id = Some row → unique_users row = "[]".

Definition kv_post_check (domains : list string) : KV.Request :=
  KV.mkRequest POST_check (Some (domains_array domains)) (Some "203.0.113.7") None.

Definition kv_world_with_users : KV.World :=
  KV.mkWorld (Some (KV.mkStatsData 7 12 ["203.0.113.7"; "198.51.100.2"] 3 8 1 0))
    ∅ ∅ ∅ [] 5000.

(** ** Notions used in the further properties *)

(** The count stored for a client, 0 when it has no entry. *)
Definition stored_count (ip : string) (w : World) : Z :=
  match stored_rate_limit ip w with
  | Some usage => count usage
  | None => 0
  end.

(** What a field of the argument of [incrementStats] adds: nothing when it
    is missing. *)
Definition amount (field : option Z) : Z :=
  match field with Some n => n | None => 0 end.

(** A row with the amounts of [delta] added to its counters. *)
Definition add_delta (row : Stats) (delta : StatsDelta) : Stats :=
  mkStats (total_requests row + amount (requests delta))
    (total_domains_checked row + amount (domainsChecked delta))
    (blocked_domains row + amount (blocked delta))
    (not_blocked_domains row + amount (notBlocked delta))
    (error_domains row + amount (errors delta))
    (last_reset row) (unique_users row).

(** Every field of [delta] is missing or 0. *)
Definition idle (delta : StatsDelta) : bool :=
  (amount (requests delta) =? 0)
  && (amount (domainsChecked delta) =? 0)
  && (amount (blocked delta) =? 0)
  && (amount (notBlocked delta) =? 0)
  && (amount (errors delta) =? 0).

(** The list [updates] that [incrementStats] builds. *)
Definition stats_updates (delta : StatsDelta) : list (Column * Z) :=
  (push_if col_total_requests (requests delta)
   ++ push_if col_total_domains_checked (domainsChecked delta)
   ++ push_if col_blocked_domains (blocked delta)
   ++ push_if col_not_blocked_domains (notBlocked delta)
   ++ push_if col_error_domains (errors delta))%list.

(** The row "global" of [stats]. *)
Definition stored_row (w : World) : option Stats :=
  stats_table (database w) ≫= (.!! "global").

(** What [getStats] makes of a stored row at time [now]. *)
Definition reading (now : Z) (row : Stats) : Stats :=
  mkStats (total_requests row) (total_domains_checked row)
    (blocked_domains row) (not_blocked_domains row) (error_domains row)
    (number_or (last_reset row) now) (string_or (unique_users row) "[]").

(** A computation keeps an invariant of the world. *)
Definition preserves {W A} (I : W → Prop) (m : M W A) : Prop :=
  ∀ w, I w → I (world (m w)).

(** Every event of a computation satisfies [P]. *)
Definition emits {W A} (P : Event → Prop) (m : M W A) : Prop :=
  ∀ w, Forall P (events (m w)).

(** A statement that does not write a count into [rate_limits]. *)
Definition writes_no_count (s : Stmt) : Prop :=
  match s with
  | InsertRateLimit _ _ _ | UpdateRateLimit _ _ _ => False
  | _ => True
  end.

Definition is_statement (e : Event) : Prop :=
  match e with Executed _ _ => True | _ => False end.

(** The client a request is counted against. *)
Definition client_ip (c : Request) : string :=
  or_string (CF_Connecting_IP c) "unknown".

(** The row "global" after the stats middleware has counted a request. *)
Definition counted (row : Stats) : Stats :=
  add_delta row (mkStatsDelta (Some 1) None None None None).

(** How the loop of the handler counts a result. *)
Definition counts_as_error (r : DomainCheckResult.t) : bool :=
  DomainCheckResult.error r.

Definition counts_as_blocked (r : DomainCheckResult.t) : bool :=
  negb (DomainCheckResult.error r) && truthy (DomainCheckResult.blocked r).

Definition counts_as_not_blocked (r : DomainCheckResult.t) : bool :=
  negb (DomainCheckResult.error r)
  && negb (truthy (DomainCheckResult.blocked r)).

Definition number_of (p : DomainCheckResult.t → bool)
  (rs : list DomainCheckResult.t) : Z :=
  Z.of_nat (length (List.filter p rs)).

(** A result is an error with one of the two error texts and
    [blocked = false], or a verdict whose text agrees with its [blocked]
    value. *)
Definition well_formed (r : DomainCheckResult.t) : Prop :=
  (DomainCheckResult.error r = true
   ∧ DomainCheckResult.blocked r = VBool false
   ∧ (DomainCheckResult.status r = "Error: Invalid response"
      ∨ DomainCheckResult.status r = "Error: API request failed"))
  ∨ (DomainCheckResult.error r = false
     ∧ DomainCheckResult.status r =
         if truthy (DomainCheckResult.blocked r) then "Blocked"
         else "Not Blocked").

(** [r] is a well formed result for the domain [d]. *)
Definition result_for (d : string) (r : DomainCheckResult.t) : Prop :=
  DomainCheckResult.originalUrl r = d ∧ well_formed r.

(** The lookup made for a batch of domains. *)
Definition lookup_of (batch : list string) : Event :=
  Fetched (String.concat "," batch).

(** The queries sent to the lookup service, in order. *)
Definition lookups (evs : list Event) : list string :=
  omap (λ e, match e with Fetched query => Some query | _ => None end) evs.

(** A statement on the [stats] table. *)
Definition on_stats (s : Stmt) : Prop :=
  match s with
  | CreateStatsTable | SelectStatsId | SelectStatsAll
  | InsertDefaultStats _ | UpdateStats _ => True
  | _ => False
  end.

(** ** Notions used for the key-value backed worker *)

(** The key of a client in the rate limit cache and namespace. *)
Definition kv_key (ip : string) : string := "rate_limit:" +:+ ip.

(** The client has no entry in the cache, or one that has left its window. *)
Definition kv_no_live_entry (ip : string) (w : KV.World) : Prop :=
  ∀ usage,
    KV.rateLimitCache w !! kv_key ip = Some usage →
    KV.timestamp usage < KV.clock w - window KV.RATE_LIMIT_WINDOW_MINUTES.

(** The client a request is counted against. *)
Definition kv_client_ip (c : KV.Request) : string :=
  or_string (KV.cf_connecting_ip c) (or_string (KV.x_forwarded_for c) "unknown").

(** The record [initializeStats] seeds the namespace with. *)
Definition kv_initial_stats (now : Z) : KV.StatsData :=
  KV.mkStatsData 0 0 [] 0 0 0 now.

(** No client is listed twice, in the cached statistics and in every
    record of the namespace. *)
Definition kv_users_unique (w : KV.World) : Prop :=
  (∀ stats, KV.statsCache w = Some stats → NoDup (KV.uniqueUsers stats))
  ∧ (∀ key stats,
       KV.STATS_STORE w !! key = Some stats → NoDup (KV.uniqueUsers stats)).

(** An update of the statistics leaves the recorded users alone or appends
    one that was not recorded. *)
Definition kv_appends_only (f : KV.StatsData → KV.StatsData) : Prop :=
  ∀ stats,
    KV.uniqueUsers (f stats) = KV.uniqueUsers stats
    ∨ (∃ ip, (ip ∉ KV.uniqueUsers stats)
             ∧ KV.uniqueUsers (f stats) = (KV.uniqueUsers stats ++ [ip])%list).

(** The namespace of the statistics is as it was in [w0], or has been
    seeded since with the initial record. *)
Definition kv_store_kept (w0 w : KV.World) : Prop :=
  KV.clock w = KV.clock w0
  ∧ (KV.STATS_STORE w = KV.STATS_STORE w0
     ∨ (KV.STATS_STORE w0 !! "global_stats" = None
        ∧ KV.STATS_STORE w =
            <["global_stats" := kv_initial_stats (KV.clock w0)]>
              (KV.STATS_STORE w0))).

(** A store behind the libsql that @libsql/client brings along, with no
    table yet; no client has been created and the clock reads 5000. *)
Definition libsql_world : World :=
  mkWorld (mkDatabase None None libsql_platform) false [] 5000.

(** The store reads a double-quoted token as the name of a column only. *)
Definition strict (w : World) : Prop :=
  double_quoted_strings (platform (database w)) = false.

(** A parsed body that is no JSON object: null, a boolean, a number, a
    string or an array. *)
Definition not_a_json_object (data : JsVal) : bool :=
  match data with
  | VObject _ => false
  | _ => true
  end.

(** The failures of a lookup request as the specification lists them: the
    request itself fails, the status is not a success status, the body is
    not JSON, or the body is no JSON object. *)
Definition lookup_failed_as_stated (o : FetchOutcome) : bool :=
  match o with
  | NetworkError => true
  | Response ok _ body =>
      negb ok
      || match body with
         | None => true
         | Some data => not_a_json_object data
         end
  end.

(** The failure rule with those failures: every domain of the batch gets
    the status "Error: API request failed". *)
Definition batch_failure_as_stated {W} (get : JsVal → string → JsVal)
    (api : nat → string → FetchOutcome) (n : nat) (domains : list string)
    (w : W) : Prop :=
  lookup_failed_as_stated (api n (String.concat "," domains)) = true →
  outcome (checkBatch get api n domains w) =
    Returned (map (λ domain,
                     DomainCheckResult.mk domain "Error: API request failed"
                       (VBool false) true) domains).

(** * Properties *)

Ltac js_cbn :=
  cbn [outcome world events database client faults clock
       set_database set_faults run_stmt writes_global platform
       stats_table rate_limits_table
       mbind option_bind stats_of rate_limit_of row_of_stats
       row_of_rate_limit tail Datatypes.app count timestamp
       allowed remaining resetTime healthy negb andb] in *.

Ltac js_unfold :=
  unfold bind, try_catch, ret, throw, Date_now, execute, initializeDbClient,
    run_stmt in *.

Ltac js_simp := repeat (progress (js_unfold; js_cbn)).

(** One case split on whatever blocks the evaluation of the goal. *)
Ltac js_case :=
  match goal with
  | |- context [match ?l with [] => _ | _ :: _ => _ end] =>
      destruct l as [|[|] ?] eqn:?
  | |- context [match ?o ≫= _ with Some _ => _ | None => _ end] =>
      destruct o eqn:?
  | |- context [match ?t !! ?k with Some _ => _ | None => _ end] =>
      destruct (t !! k) eqn:?
  | |- context [row_of_rate_limit (?t !! ?k)] =>
      destruct (t !! k) eqn:?
  | |- context [row_of_stats (?t !! ?k)] =>
      destruct (t !! k) eqn:?
  | |- context [if ?b then _ else _] =>
      destruct b eqn:?
  | |- context [match createClient_error ?p ?url ?token with _ => _ end] =>
      destruct (createClient_error p url token) eqn:?
  end.

Ltac js_run := js_simp; repeat (js_case; js_simp).

(** Rewriting with what is known about the world. *)
Ltac js_known :=
  match goal with
  | H : _ = _ |- _ => progress rewrite H
  | |- _ => progress rewrite lookup_empty
  | |- _ => progress rewrite lookup_insert_eq
  end.

Ltac js_events :=
  match goal with
  | H : ∃ s, In (Executed s false) _ |- _ =>
      let s := fresh "s" in
      destruct H as [s H]; cbn [Datatypes.app In] in H;
      repeat (destruct H as [H | H]; [discriminate H |]); destruct H
  end.

(** *** The expiry purge *)

Lemma purge_lookup_live ws (t : gmap string RateLimit) ip usage :
  t !! ip = Some usage → ws ≤ timestamp usage → purge ws t !! ip = Some usage.
Proof.
  intros Hin Hlive. unfold purge. apply map_lookup_filter_Some. by split.
Qed.

Lemma purge_lookup_Some ws (t : gmap string RateLimit) ip usage :
  purge ws t !! ip = Some usage → t !! ip = Some usage ∧ ws ≤ timestamp usage.
Proof.
  unfold purge. intros H. by apply map_lookup_filter_Some in H.
Qed.

(** *** The rate limiter *)

(** With its arguments bound, [checkRateLimit] refuses a client whose entry
    is still inside its window and whose request would take the total over
    [maxDomains]: the call returns [allowed = false],
    [remaining = maxDomains - entry.count] and
    [resetTime = entry.timestamp + window], and it writes nothing: the
    table it leaves is the table it found less the expired rows, with the
    entry of the client as it was. *)
Lemma checkRateLimit_refuses_bound env ip d maxD win w t usage :
  client w = true →
  healthy 2 (faults w) = true →
  rate_limits_table (database w) = Some t →
  t !! ip = Some usage →
  clock w - window win ≤ timestamp usage →
  maxD < count usage + d →
  let r := checkRateLimit env ip d maxD win w in
  outcome r =
    Returned (mkRateLimitResult false (maxD - count usage)
                (timestamp usage + window win))
  ∧ database (world r) =
      mkDatabase (stats_table (database w))
        (Some (purge (clock w - window win) t)) (platform (database w))
  ∧ purge (clock w - window win) t !! ip = Some usage
  ∧ events r =
      [Executed (DeleteExpiredRateLimits (clock w - window win)) true;
       Executed (SelectRateLimit ip) true].
Proof.
  intros Hc Hh Ht Hu Hlive Hover.
  pose proof (purge_lookup_live _ _ _ _ Hu Hlive) as Hp.
  apply Z.ltb_lt in Hover.
  cbv zeta. unfold checkRateLimit, window in *.
  js_simp. rewrite Hc. js_simp. rewrite Ht. js_simp.
  destruct (faults w) as [|[|] [|[|] fs]]; js_simp; try discriminate;
    rewrite ?Hp; js_simp; rewrite ?Hover; js_simp; done.
Qed.

(** With its arguments bound, [checkRateLimit] accepts a client whose entry
    is still inside its window and whose request fits under [maxDomains]:
    the stored count becomes the total and the stored timestamp becomes
    [now], so the window starts again at the time of the top-up.  The call
    returns [allowed = true], [remaining = maxDomains - totalCount] and
    [resetTime = now + window]. *)
Lemma checkRateLimit_top_up_bound env ip d maxD win w t usage :
  client w = true →
  healthy 3 (faults w) = true →
  rate_limits_table (database w) = Some t →
  t !! ip = Some usage →
  clock w - window win ≤ timestamp usage →
  count usage + d ≤ maxD →
  let r := checkRateLimit env ip d maxD win w in
  outcome r =
    Returned (mkRateLimitResult true (maxD - (count usage + d))
                (clock w + window win))
  ∧ (∃ t', rate_limits_table (database (world r)) = Some t'
           ∧ t' !! ip = Some (mkRateLimit (count usage + d) (clock w))
           ∧ ∀ ip', ip' ≠ ip → t' !! ip' = purge (clock w - window win) t !! ip')
  ∧ stats_table (database (world r)) = stats_table (database w)
  ∧ events r =
      [Executed (DeleteExpiredRateLimits (clock w - window win)) true;
       Executed (SelectRateLimit ip) true;
       Executed (UpdateRateLimit ip (count usage + d) (clock w)) true].
Proof.
  intros Hc Hh Ht Hu Hlive Hfits.
  pose proof (purge_lookup_live _ _ _ _ Hu Hlive) as Hp.
  apply Z.ltb_ge in Hfits.
  cbv zeta. unfold checkRateLimit, window in *.
  js_simp. rewrite Hc. js_simp. rewrite Ht. js_simp.
  destruct (faults w) as [|[|] [|[|] [|[|] fs]]]; js_simp; try discriminate;
    rewrite ?Hp; js_simp; rewrite ?Hfits; js_simp;
    (split; [done |]); (split; [| done]);
    eexists; (split; [done |]); rewrite lookup_alter_eq, Hp;
    (split; [done |]); intros ip' Hne; by rewrite lookup_alter_ne.
Qed.

(** C1, as stated: false.  With 5 domains used in a window opened at time
    1000, a request for 3 more at time 2000 leaves the entry with timestamp
    2000, not 1000. *)
Lemma checkRateLimit_top_up_moves_timestamp :
  ¬ top_up_keeps_window_origin example_env "203.0.113.7" 3 1000 10
      world_with_entry.
Proof.
  intros H.
  destruct (H {["203.0.113.7" := mkRateLimit 5 1000]} (mkRateLimit 5 1000))
    as (_ & t' & Ht' & Hip).
  - reflexivity.
  - apply lookup_singleton_eq.
  - vm_compute. discriminate.
  - vm_compute. discriminate.
  - assert (Hrun :
      rate_limits_table (database (world
        (checkRateLimit example_env "203.0.113.7" 3 1000 10 world_with_entry)))
      ≫= (.!! "203.0.113.7") = Some (mkRateLimit 8 2000))
      by (vm_compute; reflexivity).
    rewrite Ht' in Hrun. cbn [mbind option_bind] in Hrun.
    rewrite Hip in Hrun. discriminate Hrun.
Qed.



(** *** The bound on stored counts *)

Ltac js_arith :=
  repeat match goal with
  | H : (_ <? _) = true |- _ => apply Z.ltb_lt in H
  | H : (_ <? _) = false |- _ => apply Z.ltb_ge in H
  end.

Lemma purge_bounded maxD ws (t : gmap string RateLimit) :
  (∀ ip usage, t !! ip = Some usage → count usage ≤ maxD) →
  ∀ ip usage, purge ws t !! ip = Some usage → count usage ≤ maxD.
Proof.
  intros Ht ip usage H. apply purge_lookup_Some in H as [H _]. eauto.
Qed.

Lemma insert_bounded maxD (t : gmap string RateLimit) ip0 c ts :
  c ≤ maxD →
  (∀ ip usage, t !! ip = Some usage → count usage ≤ maxD) →
  ∀ ip usage, <[ip0 := mkRateLimit c ts]> t !! ip = Some usage → count usage ≤ maxD.
Proof.
  intros Hc Ht ip usage H. apply lookup_insert_Some in H as [[_ <-] | [_ H]].
  - exact Hc.
  - eauto.
Qed.

Lemma alter_bounded maxD (t : gmap string RateLimit) ip0 c ts :
  c ≤ maxD →
  (∀ ip usage, t !! ip = Some usage → count usage ≤ maxD) →
  ∀ ip usage,
    alter (λ _, mkRateLimit c ts) ip0 t !! ip = Some usage → count usage ≤ maxD.
Proof.
  intros Hc Ht ip usage H.
  apply lookup_alter_Some in H as [(_ & x & _ & ->) | [_ H]].
  - exact Hc.
  - eauto.
Qed.

(** One call keeps the bound, whatever the store does during the call. *)
Lemma checkRateLimit_keeps_bound env ip d maxD win w :
  counts_bounded maxD (database w) →
  counts_bounded maxD (database (world (checkRateLimit env ip d maxD win w))).
Proof.
  unfold counts_bounded, checkRateLimit. intros Hw. js_run; js_arith.
  all: try (intros t' ip' u' Ht'; apply (Hw t' ip' u' Ht')).
  all: try (intros t' ip' u' Ht'; congruence).
  all: intros t' ip' u' [= ?]; subst t'.
  all: first
    [ apply purge_bounded; eauto
    | apply insert_bounded; [lia | apply purge_bounded; eauto]
    | apply alter_bounded; [lia | apply purge_bounded; eauto] ].
Qed.






(** *** The batch checker of src/index.ts *)

Ltac batch_unfold :=
  unfold checkBatch, fetch, bind, try_catch, ret, throw.

(** C7, as the code has it.  When the lookup request of a batch fails (the
    request itself, a status that is not a success, a body that is not JSON,
    or a body that is null or not an object in the sense of [typeof], so
    that an array does not count as a failure), [checkBatch] answers with
    one result per domain of the batch, in order, each with status
    "Error: API request failed", [blocked = false] and [error = true]. *)
Theorem checkBatch_request_failed {W} get api n domains (w : W) :
  lookup_failed (api n (String.concat "," domains)) = true →
  let r := checkBatch get api n domains w in
  outcome r =
    Returned (map (λ domain,
                     DomainCheckResult.mk domain "Error: API request failed"
                       (VBool false) true) domains)
  ∧ world r = w
  ∧ events r = [Fetched (String.concat "," domains)].
Proof.
  intros Hfail. cbv zeta. batch_unfold. unfold lookup_failed in Hfail.
  destruct (api n (String.concat "," domains)) as [|[|] statusText [data|]];
    cbn [negb orb] in *; try discriminate Hfail; try done.
  destruct (is_object data); cbn [negb] in *; [discriminate Hfail | done].
Qed.

Lemma checkBatch_request_failed_witness :
  outcome (checkBatch own_property failing_api 0 ["a.com"; "b.com"; "a.com"]
             fresh_world) =
    Returned [DomainCheckResult.mk "a.com" "Error: API request failed"
                (VBool false) true;
              DomainCheckResult.mk "b.com" "Error: API request failed"
                (VBool false) true;
              DomainCheckResult.mk "a.com" "Error: API request failed"
                (VBool false) true].
Proof.
  apply (checkBatch_request_failed own_property failing_api 0
           ["a.com"; "b.com"; "a.com"] fresh_world).
  reflexivity.
Defined.

(** Whatever the lookup service does, [checkBatch] returns one result per
    domain, in order, carrying the domain as submitted, and leaves the
    world alone. *)
Lemma checkBatch_originalUrl {W} get api n domains (w : W) :
  ∃ batchResults ev,
    checkBatch get api n domains w = mkRun (Returned batchResults) w ev
    ∧ map DomainCheckResult.originalUrl batchResults = domains.
Proof.
  batch_unfold.
  destruct (api n (String.concat "," domains)) as [|[|] statusText [data|]];
    cbn [negb]; try destruct (is_object data); cbn [negb Datatypes.app];
    eexists _, _; (split; [reflexivity |]);
    rewrite map_map; cbn; try apply map_id.
  rewrite <- (map_id domains) at 2. apply map_ext. intros domain.
  by destruct (is_object _).
Qed.

Lemma results_count_result acc batchResults :
  results (fold_left count_result batchResults acc) = results acc.
Proof.
  revert acc. induction batchResults as [|r rs IH]; intros acc; [done |].
  cbn [fold_left]. rewrite IH. unfold count_result.
  by destruct (DomainCheckResult.error r), (truthy (DomainCheckResult.blocked r)).
Qed.

(** The loop, given enough rounds, returns the results of all the domains
    from position [i] on, after those it started with. *)
Lemma check_loop_originalUrl get api domains fuel : ∀ i acc w,
  (length domains ≤ i + fuel * batchSize)%nat →
  ∃ tally ev,
    check_loop get api fuel i domains acc w = mkRun (Returned tally) w ev
    ∧ map DomainCheckResult.originalUrl (results tally) =
        (map DomainCheckResult.originalUrl (results acc) ++ drop i domains)%list.
Proof.
  induction fuel as [|fuel IH]; intros i acc w Hfuel; cbn [check_loop].
  - exists acc, []. split; [done |].
    rewrite drop_ge by lia. by rewrite app_nil_r.
  - destruct (i <? length domains)%nat eqn:Hi.
    + destruct (checkBatch_originalUrl get api (i / batchSize)
                  (slice i (i + batchSize) domains) w) as (brs & ev1 & Hb & Hurls).
      destruct (IH (i + batchSize)%nat
                  (push_results (fold_left count_result brs acc) brs) w)
        as (tally & ev2 & Hl & Htally); [unfold batchSize in *; lia |].
      exists tally, (ev1 ++ ev2)%list. split.
      * unfold bind. rewrite Hb, Hl. reflexivity.
      * rewrite Htally. cbn [push_results results].
        rewrite map_app, results_count_result, Hurls, <- app_assoc.
        f_equal. unfold slice.
        replace (i + batchSize - i)%nat with batchSize by lia.
        rewrite <- (take_drop batchSize (drop i domains)) at 2.
        f_equal. rewrite drop_drop. reflexivity.
    + apply Nat.ltb_ge in Hi. exists acc, []. split; [done |].
      rewrite drop_ge by lia. by rewrite app_nil_r.
Qed.

(** *** The request pipeline of src/index.ts *)

(** Whatever the store and the lookup service do, a response that carries
    results carries those of the submitted domains. *)
Lemma check_handler_results get api c w domains rs rem rt st :
  req_json c = Some (domains_array domains) →
  outcome (check_handler get api c w) =
    Returned (json (body_results rs rem rt) st) →
  map DomainCheckResult.originalUrl rs = domains.
Proof.
  intros Hreq. unfold check_handler. rewrite Hreq.
  destruct (MAX_DOMAINS_PER_REQUEST <? _); [discriminate |].
  unfold try_catch, bind.
  destruct (checkRateLimit _ _ _ _ _ w) as [[res|e] w1 ev1]; [| discriminate].
  destruct (allowed res); cbn [negb]; [| discriminate].
  destruct (check_loop_originalUrl get api domains (length domains) 0%nat
              (mkTally [] 0 0 0 0) w1) as (tally & ev2 & Hloop & Hurls);
    [unfold batchSize; lia |].
  rewrite Hloop.
  destruct (incrementStats _ _ w1) as [[[]|e] w2 ev3]; [| discriminate].
  cbn [ret outcome]. intros [= <- _ _ _]. exact Hurls.
Qed.

Lemma app_check_results get JSON_parse api c w domains rs rem rt st :
  route c = POST_check →
  req_json c = Some (domains_array domains) →
  outcome (app get JSON_parse api c w) =
    Returned (json (body_results rs rem rt) st) →
  map DomainCheckResult.originalUrl rs = domains.
Proof.
  intros Hroute Hreq.
  unfold app, onError, database_middleware, stats_middleware, handler.
  rewrite Hroute. unfold try_catch at 1 2. unfold bind at 1.
  destruct (initializeTables _ w) as [[[]|e] w1 ev1]; [| discriminate].
  unfold try_catch at 1. unfold bind at 1.
  destruct (try_catch (incrementStats _ _) _ w1) as [[[]|e] w2 ev2];
    [| discriminate].
  unfold try_catch at 1.
  destruct (check_handler get api c w2) as [[resp|e] w3 ev3] eqn:Hh;
    [| discriminate].
  cbn [outcome]. intros [= ->].
  apply (check_handler_results get api c w2 domains rs rem rt st Hreq).
  by rewrite Hh.
Qed.

(** *** What the statements leave alone *)

Lemma checkRateLimit_keeps_stats env ip d maxD win w :
  stats_table (database (world (checkRateLimit env ip d maxD win w))) =
  stats_table (database w).
Proof. unfold checkRateLimit. js_run; reflexivity. Qed.

(** No statement of the program records a client: the [unique_users] text
    of a row stays the seeded "[]". *)
Lemma bump_unique_users updates : ∀ row,
  unique_users (fold_left bump updates row) = unique_users row.
Proof.
  induction updates as [|[col n] updates IH]; intros row; [done |].
  cbn [fold_left]. rewrite IH. by destruct col.
Qed.

Lemma run_stmt_no_user_recorded s d d' rows :
  no_user_recorded d → run_stmt s d = Some (d', rows) → no_user_recorded d'.
Proof.
  unfold no_user_recorded. intros Hd Hrun ts id row Hts Hrow.
  destruct s; unfold run_stmt in Hrun; cbn [writes_global andb] in Hrun;
    try (destruct (double_quoted_strings (platform d));
         cbn [negb] in Hrun; [| discriminate Hrun]);
    destruct (stats_table d) as [stbl|] eqn:Hs;
    destruct (rate_limits_table d) as [rtbl|] eqn:Hr;
    cbn [mbind option_bind] in Hrun;
    repeat match type of Hrun with
    | context [match ?t !! ?k with _ => _ end] => destruct (t !! k) eqn:?
    end;
    simplify_eq; cbn [stats_table] in *; simplify_eq;
    try (by eapply Hd; eauto);
    try (by rewrite lookup_empty in Hrow).
  - apply lookup_insert_Some in Hrow as [[_ <-] | [_ Hrow]]; [done |].
    by eapply Hd.
  - apply lookup_insert_Some in Hrow as [[_ <-] | [_ Hrow]]; [done |].
    by eapply Hd.
  - apply lookup_alter_Some in Hrow as [(_ & row0 & Hrow0 & ->) | [_ Hrow]].
    + rewrite bump_unique_users. by eapply Hd.
    + by eapply Hd.
  - apply lookup_alter_Some in Hrow as [(_ & row0 & Hrow0 & ->) | [_ Hrow]].
    + rewrite bump_unique_users. by eapply Hd.
    + by eapply Hd.
Qed.

(** *** The key-value backed worker *)

Ltac kv_unfold :=
  unfold bind, try_catch, ret, throw, KV.Date_now, KV.set_rateLimitCache,
    KV.RATE_LIMIT_STORE_put, KV.set_statsCache, KV.update_stats,
    KV.STATS_STORE_get, KV.STATS_STORE_put in *.

Ltac kv_cbn :=
  cbn [outcome world events KV.statsCache KV.rateLimitCache KV.STATS_STORE
       KV.RATE_LIMIT_STORE KV.faults KV.clock KV.set_faults tail Datatypes.app
       KV.count KV.timestamp KV.allowed KV.remaining KV.resetTime] in *.

(** The top-up of the key-value backed rate limiter keeps the timestamp of
    the entry and answers with the reset time of the window it belongs to. *)
Lemma kv_checkRateLimit_top_up ip d w usage :
  KV.rateLimitCache w !! ("rate_limit:" +:+ ip) = Some usage →
  KV.clock w - window KV.RATE_LIMIT_WINDOW_MINUTES ≤ KV.timestamp usage →
  KV.count usage + d ≤ KV.RATE_LIMIT_MAX_DOMAINS →
  healthy 1 (KV.faults w) = true →
  let r := KV.checkRateLimit ip d w in
  outcome r =
    Returned (KV.mkRateLimitResult true
                (KV.RATE_LIMIT_MAX_DOMAINS - (KV.count usage + d))
                (KV.timestamp usage + window KV.RATE_LIMIT_WINDOW_MINUTES))
  ∧ KV.rateLimitCache (world r) !! ("rate_limit:" +:+ ip) =
      Some (KV.mkRateLimitData (KV.count usage + d) (KV.timestamp usage)).
Proof.
  intros Hu Hlive Hfits Hh. cbv zeta. unfold KV.checkRateLimit, window in *.
  apply Z.ltb_ge in Hlive, Hfits.
  kv_unfold. kv_cbn. rewrite Hu, Hlive, Hfits.
  destruct (KV.faults w) as [|[|] fs]; try discriminate Hh; kv_cbn;
    by rewrite lookup_insert_eq.
Qed.

(** The rule of C1 does not describe the key-value backed rate limiter
    either: it keeps the timestamp, and for that very reason answers with
    [entry.timestamp + window], not [now + window]. *)
Lemma kv_checkRateLimit_top_up_reset_time :
  ¬ kv_top_up_keeps_window_origin "203.0.113.7" 3 kv_world_with_entry.
Proof.
  intros H.
  destruct (H (KV.mkRateLimitData 5 1000)) as [Hout _].
  - reflexivity.
  - vm_compute. discriminate.
  - vm_compute. discriminate.
  - vm_compute in Hout. discriminate Hout.
Qed.

(** The key-value backed handler refuses an empty array before it touches
    the statistics, the rate limiter or the lookup service. *)
Lemma kv_empty_check_refused get api c w :
  KV.req_json c = Some (domains_array []) →
  KV.check_handler get api c w =
    mkRun (Returned (KV.json (KV.body_error "No domains provided") 400)) w [].
Proof.
  intros Hreq. unfold KV.check_handler. rewrite Hreq. reflexivity.
Qed.

(** The key-value backed worker answers GET /stats/data with the number of
    recorded clients. *)
Lemma kv_stats_data_counts_users get api c w stats :
  KV.route c = GET_stats_data →
  KV.statsCache w = Some stats →
  outcome (KV.app get api c w) =
    Returned (KV.json
                (KV.body_stats (KV.totalRequests stats)
                   (KV.totalDomainsChecked stats)
                   (Z.of_nat (length (KV.uniqueUsers stats)))
                   (KV.blockedDomains stats) (KV.notBlockedDomains stats)
                   (KV.errorDomains stats) (KV.lastReset stats)
                   KV.RATE_LIMIT_MAX_DOMAINS KV.RATE_LIMIT_WINDOW_MINUTES) 200).
Proof.
  intros Hroute Hcache.
  unfold KV.app, KV.onError, KV.stats_middleware, KV.handler,
    KV.stats_data_handler, KV.initializeStats.
  rewrite Hroute. kv_unfold. rewrite Hcache. reflexivity.
Qed.

(** The key-value backed worker counts a request once, in its cache. *)
Lemma kv_successful_check_counts_once :
  let r := KV.app own_property mock_api (kv_post_check ["good.com"])
             kv_world_with_users in
  outcome r =
    Returned (KV.json (KV.body_domains [KV.mkResult "good.com" "Not Blocked"]
                         999 605000) 200)
  ∧ KV.totalRequests <$> KV.statsCache kv_world_with_users = Some 7
  ∧ KV.totalRequests <$> KV.statsCache (world r) = Some 8.
Proof. vm_compute. repeat split. Qed.

(** * Further properties *)

(** *** The rate limiter of src/db.ts, the remaining paths *)

Lemma purge_lookup_None ws (t : gmap string RateLimit) ip :
  purge ws t !! ip = None ↔ ∀ usage, t !! ip = Some usage → timestamp usage < ws.
Proof.
  unfold purge. rewrite map_lookup_filter_None. split.
  - intros [Hnone | Hexp] usage Hu; [congruence |].
    specialize (Hexp usage Hu). cbn in Hexp. lia.
  - intros Hexp. destruct (t !! ip) as [usage|] eqn:Hu; [right | by left].
    intros usage' [= <-]. specialize (Hexp usage eq_refl). cbn. lia.
Qed.

Lemma purge_lookup_cases ws (t : gmap string RateLimit) ip :
  purge ws t !! ip = t !! ip
  ∨ (purge ws t !! ip = None
     ∧ ∃ usage, t !! ip = Some usage ∧ timestamp usage < ws).
Proof.
  destruct (purge ws t !! ip) as [usage|] eqn:Hp.
  - left. apply purge_lookup_Some in Hp as [-> _]. reflexivity.
  - destruct (t !! ip) as [usage|] eqn:Hu; [right | by left].
    split; [reflexivity |]. exists usage. split; [reflexivity |].
    by apply (proj1 (purge_lookup_None ws t ip) Hp).
Qed.

(** X1.  With its arguments bound, as in src/unnamed/part_001: a client
    that has no entry, or whose entry is older than the
    window, starts a new window: the expired rows are deleted, the row
    [(ip, domainCount, now)] is inserted, and the call returns
    [allowed = true], [remaining = maxDomains - domainCount] and
    [resetTime = now + window]. *)
Theorem checkRateLimit_fresh_client env ip d maxD win w t :
  client w = true →
  healthy 3 (faults w) = true →
  rate_limits_table (database w) = Some t →
  (∀ usage, t !! ip = Some usage → timestamp usage < clock w - window win) →
  d ≤ maxD →
  let r := checkRateLimit env ip d maxD win w in
  outcome r =
    Returned (mkRateLimitResult true (maxD - d) (clock w + window win))
  ∧ rate_limits_table (database (world r)) =
      Some (<[ip := mkRateLimit d (clock w)]> (purge (clock w - window win) t))
  ∧ stats_table (database (world r)) = stats_table (database w)
  ∧ events r =
      [Executed (DeleteExpiredRateLimits (clock w - window win)) true;
       Executed (SelectRateLimit ip) true;
       Executed (InsertRateLimit ip d (clock w)) true].
Proof.
  intros Hc Hh Ht Hfresh Hd.
  apply purge_lookup_None in Hfresh as Hp.
  apply Z.ltb_ge in Hd.
  cbv zeta. unfold checkRateLimit, window in *.
  js_simp. rewrite Hc. js_simp. rewrite Ht. js_simp.
  destruct (faults w) as [|[|] [|[|] [|[|] fs]]]; js_simp; try discriminate;
    rewrite ?Hp; js_simp; rewrite ?Hd; js_simp; rewrite ?Hp; done.
Qed.

Lemma checkRateLimit_fresh_client_witness :
  let r := checkRateLimit example_env "198.51.100.2" 40 1000 10 world_with_entry in
  outcome r = Returned (mkRateLimitResult true 960 602000)
  ∧ stored_rate_limit "198.51.100.2" (world r) = Some (mkRateLimit 40 2000).
Proof.
  destruct (checkRateLimit_fresh_client example_env "198.51.100.2" 40 1000 10
              world_with_entry {["203.0.113.7" := mkRateLimit 5 1000]})
    as (Hout & Ht & _).
  - reflexivity.
  - reflexivity.
  - reflexivity.
  - intros usage Hu. vm_compute in Hu. discriminate Hu.
  - vm_compute. discriminate.
  - cbv zeta. split; [exact Hout |].
    unfold stored_rate_limit. rewrite Ht. cbn [mbind option_bind].
    apply lookup_insert_eq.
Defined.

(** X2.  With its arguments bound, as in src/unnamed/part_001: a client
    without a live entry that asks for more than
    [maxDomains] at once is refused with [remaining = maxDomains] and
    [resetTime = now + window], and no entry is stored for it: the table
    left is the table found less the expired rows. *)
Theorem checkRateLimit_fresh_oversized env ip d maxD win w t :
  client w = true →
  healthy 2 (faults w) = true →
  rate_limits_table (database w) = Some t →
  (∀ usage, t !! ip = Some usage → timestamp usage < clock w - window win) →
  maxD < d →
  let r := checkRateLimit env ip d maxD win w in
  outcome r = Returned (mkRateLimitResult false maxD (clock w + window win))
  ∧ database (world r) =
      mkDatabase (stats_table (database w))
        (Some (purge (clock w - window win) t)) (platform (database w))
  ∧ purge (clock w - window win) t !! ip = None
  ∧ events r =
      [Executed (DeleteExpiredRateLimits (clock w - window win)) true;
       Executed (SelectRateLimit ip) true].
Proof.
  intros Hc Hh Ht Hfresh Hd.
  apply purge_lookup_None in Hfresh as Hp.
  apply Z.ltb_lt in Hd.
  cbv zeta. unfold checkRateLimit, window in *.
  js_simp. rewrite Hc. js_simp. rewrite Ht. js_simp.
  destruct (faults w) as [|[|] [|[|] fs]]; js_simp; try discriminate;
    rewrite ?Hp; js_simp; rewrite ?Hd; js_simp; done.
Qed.

Lemma checkRateLimit_fresh_oversized_witness :
  let r := checkRateLimit example_env "198.51.100.2" 1001 1000 10 world_with_entry in
  outcome r = Returned (mkRateLimitResult false 1000 602000)
  ∧ stored_rate_limit "198.51.100.2" (world r) = None.
Proof.
  destruct (checkRateLimit_fresh_oversized example_env "198.51.100.2" 1001 1000
              10 world_with_entry {["203.0.113.7" := mkRateLimit 5 1000]})
    as (Hout & Hdb & Hp & _).
  - reflexivity.
  - reflexivity.
  - reflexivity.
  - intros usage Hu. vm_compute in Hu. discriminate Hu.
  - vm_compute. reflexivity.
  - cbv zeta. split; [exact Hout |].
    unfold stored_rate_limit. rewrite Hdb. exact Hp.
Defined.

(** X3.  With its arguments bound, as in src/unnamed/part_001: whenever
    the store answers, the [remaining] a call reports is
    [maxDomains] less the count the store holds for the client after the
    call (0 when it holds none), on the accepting and on the refusing
    paths alike. *)
Theorem checkRateLimit_remaining_is_stored env ip d maxD win w t :
  client w = true →
  healthy 3 (faults w) = true →
  rate_limits_table (database w) = Some t →
  let r := checkRateLimit env ip d maxD win w in
  ∃ res, outcome r = Returned res
         ∧ remaining res = maxD - stored_count ip (world r).
Proof.
  intros Hc Hh Ht. cbv zeta.
  unfold checkRateLimit, stored_count, stored_rate_limit.
  js_simp. rewrite Hc. js_simp. rewrite Ht. js_simp.
  destruct (faults w) as [|[|] [|[|] [|[|] fs]]]; js_simp; try discriminate.
  all: destruct (purge _ t !! ip) as [usage|] eqn:Hp; js_simp.
  all: try (destruct (maxD <? count usage + d); js_simp).
  all: try (destruct (maxD <? d); js_simp).
  all: rewrite ?Hp; js_simp.
  all: eexists; (split; [reflexivity |]); cbn [remaining mbind option_bind].
  all: rewrite ?lookup_alter_eq, ?lookup_insert_eq, ?Hp; cbn; lia.
Qed.

Lemma checkRateLimit_remaining_is_stored_witness :
  ∃ res,
    outcome (checkRateLimit example_env "203.0.113.7" 3 1000 10 world_with_entry)
      = Returned res
    ∧ remaining res = 992.
Proof.
  destruct (checkRateLimit_remaining_is_stored example_env "203.0.113.7" 3 1000
              10 world_with_entry {["203.0.113.7" := mkRateLimit 5 1000]})
    as (res & Hout & Hrem).
  - reflexivity.
  - reflexivity.
  - reflexivity.
  - exists res. split; [exact Hout |]. rewrite Hrem. vm_compute. reflexivity.
Defined.

(** X4.  With its arguments bound, as in src/unnamed/part_001: a call for
    one client leaves the entries of every other client
    alone, whatever the store does during the call: afterwards another
    client has the entry it had, unless that entry was older than the
    window, in which case it may be gone.  The statistics are not
    touched. *)
Theorem checkRateLimit_other_clients env ip ip' d maxD win w t :
  ip' ≠ ip →
  rate_limits_table (database w) = Some t →
  let r := checkRateLimit env ip d maxD win w in
  (∃ t', rate_limits_table (database (world r)) = Some t'
         ∧ (t' !! ip' = t !! ip'
            ∨ (t' !! ip' = None
               ∧ ∃ usage, t !! ip' = Some usage
                          ∧ timestamp usage < clock w - window win)))
  ∧ stats_table (database (world r)) = stats_table (database w).
Proof.
  intros Hne Ht. cbv zeta. unfold checkRateLimit, window.
  js_simp.
  repeat (first [rewrite Ht | js_case]; js_simp).
  all: split; [| reflexivity].
  all: eexists; (split; [first [reflexivity | exact Ht] |]).
  all: rewrite ?lookup_alter_ne, ?lookup_insert_ne by done.
  all: first [by left | apply purge_lookup_cases].
Qed.

Lemma checkRateLimit_other_clients_witness :
  stored_rate_limit "203.0.113.7"
    (world (checkRateLimit example_env "198.51.100.2" 40 1000 10 world_with_entry))
  = Some (mkRateLimit 5 1000).
Proof.
  destruct (checkRateLimit_other_clients example_env "198.51.100.2"
              "203.0.113.7" 40 1000 10 world_with_entry
              {["203.0.113.7" := mkRateLimit 5 1000]})
    as ((t' & Ht' & [Hsame | (_ & usage & Hu & Hold)]) & _).
  - discriminate.
  - reflexivity.
  - unfold stored_rate_limit. rewrite Ht'. cbn [mbind option_bind].
    rewrite Hsame. apply lookup_singleton_eq.
  - rewrite lookup_singleton_eq in Hu. injection Hu as <-.
    vm_compute in Hold. discriminate Hold.
Defined.

(** X5.  Failing open covers the store, not the configuration: while no
    client exists and [env] lacks the URL or the token, [checkRateLimit]
    throws, before any statement is issued and without touching the world. *)
Theorem checkRateLimit_unconfigured_throws env ip d maxD win w :
  connectable env w = false →
  let r := checkRateLimit env ip d maxD win w in
  (outcome r = Thrown "DATABASE_URL is required"
   ∨ outcome r = Thrown "DATABASE_AUTH_TOKEN is required")
  ∧ world r = w
  ∧ events r = [].
Proof.
  unfold connectable, checkRateLimit. intros Hc. cbv zeta. js_simp.
  destruct (client w); [discriminate Hc |].
  destruct (String.eqb (DATABASE_URL env) ""); js_simp;
    [split; [by left | done] |].
  destruct (truthy_string (DATABASE_AUTH_TOKEN env)); [discriminate Hc |].
  cbn [negb]. js_simp. split; [by right | done].
Qed.

Lemma checkRateLimit_unconfigured_throws_witness :
  outcome (checkRateLimit (mkEnv "libsql://example.turso.io" None)
             "203.0.113.7" 3 1000 10 fresh_world)
  = Thrown "DATABASE_AUTH_TOKEN is required".
Proof.
  destruct (checkRateLimit_unconfigured_throws
              (mkEnv "libsql://example.turso.io" None) "203.0.113.7" 3 1000 10
              fresh_world) as ([Hurl | Htoken] & _).
  - reflexivity.
  - vm_compute in Hurl. discriminate Hurl.
  - exact Htoken.
Defined.

(** *** The statistics of src/db.ts *)

Lemma bump_zero row col : bump row (col, 0) = row.
Proof.
  destruct row, col; unfold bump; cbn [fst snd total_requests
    total_domains_checked blocked_domains not_blocked_domains error_domains
    last_reset unique_users]; by rewrite Z.add_0_r.
Qed.

Lemma bump_push_if col field rest row :
  fold_left bump (push_if col field ++ rest) row =
  fold_left bump rest (bump row (col, amount field)).
Proof.
  destruct field as [n|]; cbn [push_if amount].
  - destruct (n =? 0) eqn:Hn; cbn [Datatypes.app fold_left]; [| reflexivity].
    apply Z.eqb_eq in Hn as ->. by rewrite bump_zero.
  - cbn [Datatypes.app]. by rewrite bump_zero.
Qed.

Lemma bump_stats_updates delta row :
  fold_left bump (stats_updates delta) row = add_delta row delta.
Proof.
  unfold stats_updates. rewrite !bump_push_if.
  rewrite <- (app_nil_r (push_if col_error_domains _)), bump_push_if.
  by destruct row.
Qed.

Lemma stats_updates_idle delta :
  idle delta = true ↔ stats_updates delta = [].
Proof.
  unfold idle, stats_updates, push_if.
  destruct delta as [[a|] [b|] [c|] [d|] [e|]]; cbn [requests domainsChecked
    blocked notBlocked errors amount]; rewrite ?Z.eqb_refl;
    repeat match goal with
    | |- context [?n =? 0] => destruct (n =? 0)
    end; cbn [andb Datatypes.app]; split; done.
Qed.

Lemma add_delta_idle delta row : idle delta = true → add_delta row delta = row.
Proof.
  unfold idle, add_delta. rewrite !andb_true_iff, !Z.eqb_eq.
  intros ((((-> & ->) & ->) & ->) & ->).
  destruct row. cbn [total_requests total_domains_checked blocked_domains
    not_blocked_domains error_domains last_reset unique_users].
  by rewrite !Z.add_0_r.
Qed.

Lemma number_or_zero x : number_or x 0 = x.
Proof. unfold number_or. destruct (x =? 0) eqn:H; [| done]. by apply Z.eqb_eq in H. Qed.

(** X8.  With nothing to add, every field missing or 0, and a database
    client in place or at hand, [incrementStats] does not talk to the store
    at all: it returns without a statement, also while the store is down,
    rejects the statements on [stats] or has no schema. *)
Theorem incrementStats_idle_is_silent env delta w :
  connects env w = true →
  idle delta = true →
  let r := incrementStats env delta w in
  outcome r = Returned tt
  ∧ database (world r) = database w
  ∧ faults (world r) = faults w
  ∧ clock (world r) = clock w
  ∧ events r = [].
Proof.
  unfold connects. intros Hc Hidle. cbv zeta. unfold incrementStats.
  fold (stats_updates delta).
  pose proof (proj1 (stats_updates_idle delta) Hidle) as ->.
  cbn [length Nat.ltb Nat.leb]. js_simp.
  destruct (client w); js_simp; [done |].
  destruct (String.eqb (DATABASE_URL env) ""); [discriminate Hc |].
  destruct (truthy_string (DATABASE_AUTH_TOKEN env)); [| discriminate Hc].
  cbn [negb orb andb] in *. apply bool_decide_eq_true in Hc. rewrite Hc.
  js_simp. done.
Qed.

Lemma incrementStats_idle_is_silent_witness :
  let w := mkWorld (mkDatabase None None legacy_platform) true [true; true] 7000 in
  events (incrementStats example_env
            (mkStatsDelta (Some 0) None (Some 0) None None) w) = [].
Proof.
  apply (incrementStats_idle_is_silent example_env
           (mkStatsDelta (Some 0) None (Some 0) None None)
           (mkWorld (mkDatabase None None legacy_platform) true [true; true] 7000)).
  - reflexivity.
  - reflexivity.
Defined.

(** X9.  When a statement issued by [incrementStats] throws, the call does
    not return: it throws an error whose message starts with
    "Failed to increment stats: ". *)
Theorem incrementStats_failure_is_thrown env delta w :
  let r := incrementStats env delta w in
  (∃ s, In (Executed s false) (events r)) →
  ∃ message, outcome r = Thrown ("Failed to increment stats: " +:+ message).
Proof.
  cbv zeta. unfold incrementStats. js_run.
  all: first [intros _; eexists; reflexivity | intros H; js_events].
Qed.

Lemma incrementStats_failure_is_thrown_witness :
  outcome (incrementStats example_env
             (mkStatsDelta (Some 1) None None None None)
             (mkWorld (database seeded_world) true [false; true] 5000))
  = Thrown "Failed to increment stats: store unavailable".
Proof.
  destruct (incrementStats_failure_is_thrown example_env
              (mkStatsDelta (Some 1) None None None None)
              (mkWorld (database seeded_world) true [false; true] 5000))
    as [message Hout].
  - exists (UpdateStats [(col_total_requests, 1)]).
    vm_compute. right. left. reflexivity.
  - rewrite Hout. vm_compute in Hout. injection Hout as ->. reflexivity.
Defined.

(** *** Schema initialisation, further *)

(** X13.  [initializeTables] never removes or changes what the store holds,
    whatever the store does during the run: every [stats] row that was
    there is still there, and so is the whole [rate_limits] table. *)
Theorem initializeTables_keeps_data env w :
  let r := initializeTables env w in
  (∀ ts id row,
     stats_table (database w) = Some ts → ts !! id = Some row →
     (stats_table (database (world r)) ≫= (.!! id)) = Some row)
  ∧ (∀ t, rate_limits_table (database w) = Some t →
          rate_limits_table (database (world r)) = Some t).
Proof.
  cbv zeta. unfold initializeTables. js_run.
  all: split; [intros ts id row Hts Hid | intros t Ht].
  all: simplify_eq; cbn [mbind option_bind].
  all: repeat match goal with
       | H : stats_table (database _) = _ |- _ => rewrite H in *
       | H : rate_limits_table (database _) = _ |- _ => rewrite H in *
       end; simplify_eq; cbn [mbind option_bind]; try done.
  all: rewrite lookup_insert_ne; [done | congruence].
Qed.

(** *** Invariants and events of whole computations *)

Section Preserves.
Context {W : Type} (I : W → Prop).

Lemma preserves_ret {A} (a : A) : preserves I (ret a).
Proof. by intros w Hw. Qed.

Lemma preserves_throw {A} message : preserves I (@throw W A message).
Proof. by intros w Hw. Qed.

Lemma preserves_bind {A B} (m : M W A) (k : A → M W B) :
  preserves I m → (∀ a, preserves I (k a)) → preserves I (bind m k).
Proof.
  intros Hm Hk w Hw. unfold bind. specialize (Hm w Hw).
  destruct (m w) as [[a|e] w1 ev1]; [| exact Hm].
  specialize (Hk a w1 Hm). by destruct (k a w1).
Qed.

Lemma preserves_try_catch {A} (m : M W A) (handler : string → M W A) :
  preserves I m → (∀ e, preserves I (handler e)) → preserves I (try_catch m handler).
Proof.
  intros Hm Hh w Hw. unfold try_catch. specialize (Hm w Hw).
  destruct (m w) as [[a|e] w1 ev1]; [exact Hm |].
  specialize (Hh e w1 Hm). by destruct (handler e w1).
Qed.

Lemma preserves_fetch api n query : preserves I (@fetch api W n query).
Proof. intros w Hw. unfold fetch. by destruct (api n query). Qed.

End Preserves.

Section Emits.
Context {W : Type} (P : Event → Prop).

Lemma emits_ret {A} (a : A) : emits P (@ret W A a).
Proof. intros w. constructor. Qed.

Lemma emits_throw {A} message : emits P (@throw W A message).
Proof. intros w. constructor. Qed.

Lemma emits_bind {A B} (m : M W A) (k : A → M W B) :
  emits P m → (∀ a, emits P (k a)) → emits P (bind m k).
Proof.
  intros Hm Hk w. unfold bind. specialize (Hm w).
  destruct (m w) as [[a|e] w1 ev1]; [| exact Hm].
  specialize (Hk a w1). destruct (k a w1). cbn [events] in *.
  by apply Forall_app_2.
Qed.

Lemma emits_try_catch {A} (m : M W A) (handler : string → M W A) :
  emits P m → (∀ e, emits P (handler e)) → emits P (try_catch m handler).
Proof.
  intros Hm Hh w. unfold try_catch. specialize (Hm w).
  destruct (m w) as [[a|e] w1 ev1]; [exact Hm |].
  specialize (Hh e w1). destruct (handler e w1). cbn [events] in *.
  by apply Forall_app_2.
Qed.

End Emits.

Ltac compose_step lemma_bind lemma_try lemma_ret lemma_throw :=
  first
    [ apply lemma_ret
    | apply lemma_throw
    | apply lemma_bind; [| intros ?]
    | apply lemma_try; [| intros ?] ].

(** The invariants of the database that a statement keeps carry over to
    the functions of src/db.ts that only issue such statements. *)
Section DatabaseInvariant.
Context (I : Database → Prop) (S : Stmt → Prop).
Hypothesis statement_keeps :
  ∀ s d d' rows, S s → I d → run_stmt s d = Some (d', rows) → I d'.

Local Abbreviation Iw := (λ w : World, I (database w)).

Lemma preserves_execute s : S s → preserves Iw (execute s).
Proof.
  intros Hs w Hw. unfold execute in *.
  destruct (faults w) as [|[|] fs]; cbn [world database set_faults]; try done.
  all: destruct (run_stmt s (database w)) as [[d rows]|] eqn:Hrun;
    cbn [world database set_faults set_database]; eauto.
Qed.

Lemma preserves_Date_now : preserves Iw Date_now.
Proof. by intros w Hw. Qed.

Lemma preserves_initializeDbClient env : preserves Iw (initializeDbClient env).
Proof.
  intros w Hw. unfold initializeDbClient in *.
  destruct (client w); [done |].
  destruct (String.eqb _ _); [done |]. destruct (negb _); [done |].
  by destruct (createClient_error _ _ _).
Qed.

Ltac db_preserves :=
  repeat first
    [ apply preserves_initializeDbClient
    | apply preserves_Date_now
    | apply preserves_execute
    | compose_step (@preserves_bind World Iw) (@preserves_try_catch World Iw)
        (@preserves_ret World Iw) (@preserves_throw World Iw)
    | match goal with
      | |- preserves _ (match ?x with _ => _ end) => destruct x
      end ].

Lemma preserves_initializeTables env :
  S CreateStatsTable → S SelectStatsId → (∀ now, S (InsertDefaultStats now)) →
  S CreateRateLimitsTable →
  preserves Iw (initializeTables env).
Proof. intros. unfold initializeTables. db_preserves; auto. Qed.

Lemma preserves_getStats env :
  S SelectStatsAll → (∀ now, S (InsertDefaultStats now)) →
  preserves Iw (getStats env).
Proof. intros. unfold getStats. db_preserves; auto. Qed.

Lemma preserves_incrementStats env delta :
  S SelectStatsId → (∀ now, S (InsertDefaultStats now)) →
  (∀ updates, S (UpdateStats updates)) →
  preserves Iw (incrementStats env delta).
Proof. intros. unfold incrementStats. db_preserves; auto. Qed.

Lemma preserves_checkRateLimit env ip d maxD win :
  (∀ s, S s) → preserves Iw (checkRateLimit env ip d maxD win).
Proof. intros. unfold checkRateLimit. db_preserves; auto. Qed.

End DatabaseInvariant.

Section DatabaseEvents.
Context (P : Event → Prop).
Hypothesis statements : ∀ s ok, P (Executed s ok).

Lemma emits_execute s : emits P (execute s).
Proof.
  intros w. unfold execute.
  destruct (faults w) as [|[|] fs]; cbn [events];
    try destruct (run_stmt s (database w)) as [[d rows]|];
    cbn [events]; repeat constructor; apply statements.
Qed.

Lemma emits_Date_now : emits P Date_now.
Proof. intros w. constructor. Qed.

Lemma emits_initializeDbClient env : emits P (initializeDbClient env).
Proof.
  intros w. unfold initializeDbClient.
  destruct (client w); [constructor |].
  destruct (String.eqb _ _); [constructor |].
  destruct (negb _); [constructor |].
  destruct (createClient_error _ _ _); constructor.
Qed.

Ltac db_emits :=
  repeat first
    [ apply emits_initializeDbClient
    | apply emits_Date_now
    | apply emits_execute
    | compose_step (@emits_bind World P) (@emits_try_catch World P)
        (@emits_ret World P) (@emits_throw World P)
    | match goal with
      | |- emits _ (match ?x with _ => _ end) => destruct x
      end ].

Lemma emits_initializeTables env : emits P (initializeTables env).
Proof. unfold initializeTables. db_emits. Qed.

Lemma emits_getStats env : emits P (getStats env).
Proof. unfold getStats. db_emits. Qed.

Lemma emits_incrementStats env delta : emits P (incrementStats env delta).
Proof. unfold incrementStats. db_emits. Qed.

Lemma emits_checkRateLimit env ip d maxD win :
  emits P (checkRateLimit env ip d maxD win).
Proof. unfold checkRateLimit. db_emits. Qed.

End DatabaseEvents.

(** The invariants that the functions of src/db.ts keep, the whole
    application keeps, for every request. *)
Section AppInvariant.
Context (I : World → Prop).
Context (get : JsVal → string → JsVal) (JSON_parse : string → option JsVal)
        (api : nat → string → FetchOutcome).
Hypothesis keeps_initializeTables : ∀ env, preserves I (initializeTables env).
Hypothesis keeps_getStats : ∀ env, preserves I (getStats env).
Hypothesis keeps_incrementStats :
  ∀ env delta, preserves I (incrementStats env delta).
Hypothesis keeps_checkRateLimit :
  ∀ env ip d,
    preserves I (checkRateLimit env ip d RATE_LIMIT_MAX_DOMAINS
                   RATE_LIMIT_WINDOW_MINUTES).

Ltac app_preserves :=
  repeat first
    [ apply keeps_initializeTables
    | apply keeps_getStats
    | apply keeps_incrementStats
    | apply keeps_checkRateLimit
    | apply preserves_fetch
    | compose_step (@preserves_bind World I) (@preserves_try_catch World I)
        (@preserves_ret World I) (@preserves_throw World I)
    | match goal with
      | |- preserves _ (match ?x with _ => _ end) => destruct x
      end ].

Lemma preserves_checkBatch n domains : preserves I (checkBatch get api n domains).
Proof. unfold checkBatch. app_preserves. Qed.

Lemma preserves_check_loop domains fuel : ∀ i acc,
  preserves I (check_loop get api fuel i domains acc).
Proof.
  induction fuel as [|fuel IH]; intros i acc; cbn [check_loop].
  - apply preserves_ret.
  - destruct (i <? length domains)%nat; [| apply preserves_ret].
    apply preserves_bind; [apply preserves_checkBatch | intros brs; apply IH].
Qed.

Lemma preserves_check_handler c : preserves I (check_handler get api c).
Proof.
  unfold check_handler.
  destruct (req_json c) as [[| |domains]|]; app_preserves.
  apply preserves_check_loop.
Qed.

Lemma preserves_stats_data_handler c :
  preserves I (stats_data_handler JSON_parse c).
Proof. unfold stats_data_handler. app_preserves. Qed.

Lemma preserves_app c : preserves I (app get JSON_parse api c).
Proof.
  unfold app, onError, database_middleware, stats_middleware, handler.
  app_preserves.
  all: first [apply preserves_check_handler | apply preserves_stats_data_handler].
Qed.

End AppInvariant.

Lemma run_stmt_keeps_bound maxD s d d' rows :
  writes_no_count s →
  counts_bounded maxD d → run_stmt s d = Some (d', rows) → counts_bounded maxD d'.
Proof.
  unfold counts_bounded. intros Hs Hd Hrun t ip usage Ht Hu.
  destruct s; unfold run_stmt in Hrun;
    cbn [writes_no_count writes_global andb] in *;
    try (destruct (double_quoted_strings (platform d));
         cbn [negb] in Hrun; [| discriminate Hrun]); try done;
    destruct (stats_table d) as [stbl|] eqn:Hst;
    destruct (rate_limits_table d) as [rtbl|] eqn:Hrt;
    cbn [mbind option_bind] in Hrun;
    repeat match type of Hrun with
    | context [match ?t !! ?k with _ => _ end] => destruct (t !! k) eqn:?
    end;
    simplify_eq; cbn [rate_limits_table] in *; simplify_eq;
    try (by eapply Hd; eauto);
    try (by rewrite lookup_empty in Hu).
  all: apply purge_lookup_Some in Hu as [Hu _]; by eapply Hd.
Qed.

(** X15.  No request records a client in the libsql backed worker: if the
    [unique_users] text of every [stats] row is the seeded "[]" before a
    request, it is after it, whatever the request, the store and the
    lookup service do. *)
Theorem app_never_records_users get JSON_parse api c w :
  no_user_recorded (database w) →
  no_user_recorded (database (world (app get JSON_parse api c w))).
Proof.
  apply (preserves_app (λ w, no_user_recorded (database w))).
  - intros env. apply (preserves_initializeTables _ (λ _, True)); auto.
    intros s d d' rows _. apply run_stmt_no_user_recorded.
  - intros env. apply (preserves_getStats _ (λ _, True)); auto.
    intros s d d' rows _. apply run_stmt_no_user_recorded.
  - intros env delta. apply (preserves_incrementStats _ (λ _, True)); auto.
    intros s d d' rows _. apply run_stmt_no_user_recorded.
  - intros env ip d. apply (preserves_checkRateLimit _ (λ _, True)); auto.
    intros s d0 d' rows _. apply run_stmt_no_user_recorded.
Qed.

Lemma app_never_records_users_witness :
  no_user_recorded
    (database (world (app own_property parse_empty_array mock_api
                        (post_check ["good.com"; "bad.com"]) seeded_world))).
Proof.
  apply (app_never_records_users own_property parse_empty_array mock_api
           (post_check ["good.com"; "bad.com"]) seeded_world).
  intros ts id row [= <-] Hrow.
  apply lookup_singleton_Some in Hrow as [_ <-]. reflexivity.
Defined.

(** X16.  No request takes a stored count over the limit: if every count in
    [rate_limits] is at most 1000 before a request, it is after it,
    whatever the request, the store and the lookup service do. *)
Theorem app_keeps_counts_bounded get JSON_parse api c w :
  counts_bounded RATE_LIMIT_MAX_DOMAINS (database w) →
  counts_bounded RATE_LIMIT_MAX_DOMAINS
    (database (world (app get JSON_parse api c w))).
Proof.
  apply (preserves_app
           (λ w, counts_bounded RATE_LIMIT_MAX_DOMAINS (database w))).
  - intros env. apply (preserves_initializeTables _ writes_no_count); try done.
    intros s d d' rows. apply run_stmt_keeps_bound.
  - intros env. apply (preserves_getStats _ writes_no_count); try done.
    intros s d d' rows. apply run_stmt_keeps_bound.
  - intros env delta.
    apply (preserves_incrementStats _ writes_no_count); try done.
    intros s d d' rows. apply run_stmt_keeps_bound.
  - intros env ip d w0. apply checkRateLimit_keeps_bound.
Qed.

Lemma app_keeps_counts_bounded_witness :
  counts_bounded RATE_LIMIT_MAX_DOMAINS
    (database (world (app own_property parse_empty_array mock_api
                        (post_check ["good.com"; "bad.com"]) seeded_world))).
Proof.
  apply (app_keeps_counts_bounded own_property parse_empty_array mock_api
           (post_check ["good.com"; "bad.com"]) seeded_world).
  intros t ip usage [= <-] Hu. rewrite lookup_empty in Hu. discriminate Hu.
Defined.

(** *** Requests that are refused *)

Lemma initializeTables_failure_is_thrown env w :
  (∃ s, In (Executed s false) (events (initializeTables env w))) →
  ∃ message, outcome (initializeTables env w) = Thrown message.
Proof.
  unfold initializeTables. js_run.
  all: first [intros _; eexists; reflexivity | intros H; js_events].
Qed.

(** X17.  When a statement of [initializeTables] throws at the start of a
    request to one of the two API routes, the request ends there: the
    answer is status 500 with the error "Database error" and the message of
    the failure as details, and nothing runs after the schema
    initialisation, no counting, no rate limiting, no lookup. *)
Theorem database_failure_ends_request get JSON_parse api c w :
  let init := initializeTables (getEnvVars (req_env c)) w in
  (∃ s, In (Executed s false) (events init)) →
  ∃ details,
    outcome init = Thrown details
    ∧ app get JSON_parse api c w =
        mkRun (Returned (json (body_error_details "Database error" details) 500))
          (world init) (events init).
Proof.
  cbv zeta. intros Hfail.
  destruct (initializeTables_failure_is_thrown _ _ Hfail) as [details Hout].
  exists details. split; [exact Hout |].
  unfold app, onError, database_middleware.
  unfold try_catch at 1 2. unfold bind at 1.
  destruct (initializeTables _ w) as [o w1 ev1]. cbn [outcome] in Hout.
  subst o. cbn [ret world events]. by rewrite app_nil_r.
Qed.

Lemma database_failure_ends_request_witness :
  app own_property parse_empty_array mock_api (post_check ["good.com"])
    (mkWorld (database seeded_world) true [false; true] 5000)
  = mkRun (Returned (json (body_error_details "Database error"
                             "store unavailable") 500))
      (mkWorld (database seeded_world) true [] 5000)
      [Executed CreateStatsTable true; Executed SelectStatsId false].
Proof.
  destruct (database_failure_ends_request own_property parse_empty_array
              mock_api (post_check ["good.com"])
              (mkWorld (database seeded_world) true [false; true] 5000))
    as (details & Hout & Happ).
  - exists SelectStatsId. vm_compute. right. left. reflexivity.
  - rewrite Happ. vm_compute in Hout. injection Hout as <-.
    vm_compute. reflexivity.
Defined.

Lemma check_handler_refusal_events get api c w body st :
  outcome (check_handler get api c w) = Returned (json body st) →
  st = 400 ∨ st = 429 →
  Forall is_statement (events (check_handler get api c w)).
Proof.
  unfold check_handler.
  destruct (req_json c) as [field|]; [| discriminate].
  destruct (match field with domains_falsy => domains_array [] | d => d end)
    as [| |domains]; cbn [ret outcome events]; try (intros; constructor).
  destruct (MAX_DOMAINS_PER_REQUEST <? _);
    cbn [ret outcome events]; [intros; constructor |].
  pose proof (emits_checkRateLimit is_statement (λ _ _, I)
                (c_env (req_env c)) (or_string (CF_Connecting_IP c) "unknown")
                (Z.of_nat (length domains)) RATE_LIMIT_MAX_DOMAINS
                RATE_LIMIT_WINDOW_MINUTES w) as Hev.
  revert Hev. unfold try_catch, bind.
  destruct (checkRateLimit _ _ _ _ _ w) as [[res|e] w1 ev1]; cbn [events].
  - destruct (allowed res); cbn [negb].
    + destruct (check_loop _ _ _ _ _ _ w1) as [[tally|e] w2 ev2];
        [destruct (incrementStats _ _ w2) as [[[]|e] w3 ev3] |];
        cbn [ret outcome]; intros _ [= <- <-] [|]; discriminate.
    + cbn [ret outcome events]. intros Hev _ _.
      rewrite ?app_nil_r. exact Hev.
  - cbn [ret outcome]. intros _ [= <- <-] [|]; discriminate.
Qed.

(** The middleware chain written out: what [app] does with a request, in
    terms of the runs of its stages. *)
Lemma app_check_run get JSON_parse api c w :
  route c = POST_check →
  app get JSON_parse api c w =
    match initializeTables (getEnvVars (req_env c)) w with
    | mkRun (Thrown e) w1 ev1 =>
        mkRun (Returned (json (body_error_details "Database error" e) 500))
          w1 ev1
    | mkRun (Returned _) w1 ev1 =>
        match incrementStats (getEnvVars (req_env c))
                (mkStatsDelta (Some 1) None None None None) w1 with
        | mkRun _ w2 ev2 =>
            match check_handler get api c w2 with
            | mkRun (Returned response) w3 ev3 =>
                mkRun (Returned response) w3 (ev1 ++ ev2 ++ ev3)
            | mkRun (Thrown _) w3 ev3 =>
                mkRun (Returned (json (body_message "Internal Server Error" 500)
                                   500)) w3 (ev1 ++ ev2 ++ ev3)
            end
        end
    end.
Proof.
  intros Hroute.
  unfold app, onError, database_middleware, stats_middleware, handler.
  rewrite Hroute. unfold try_catch, bind, ret.
  destruct (initializeTables _ w) as [[[]|e] w1 ev1];
    [| by rewrite app_nil_r].
  destruct (incrementStats _ _ w1) as [[[]|e] w2 ev2];
    destruct (check_handler get api c w2) as [[response|e'] w3 ev3];
    by rewrite ?app_nil_r.
Qed.

Lemma app_stats_data_run get JSON_parse api c w :
  route c = GET_stats_data →
  app get JSON_parse api c w =
    match initializeTables (getEnvVars (req_env c)) w with
    | mkRun (Thrown e) w1 ev1 =>
        mkRun (Returned (json (body_error_details "Database error" e) 500))
          w1 ev1
    | mkRun (Returned _) w1 ev1 =>
        match stats_data_handler JSON_parse c w1 with
        | mkRun (Returned response) w2 ev2 =>
            mkRun (Returned response) w2 (ev1 ++ ev2)
        | mkRun (Thrown _) w2 ev2 =>
            mkRun (Returned (json (body_message "Internal Server Error" 500)
                               500)) w2 (ev1 ++ ev2)
        end
    end.
Proof.
  intros Hroute.
  unfold app, onError, database_middleware, stats_middleware, handler.
  rewrite Hroute. unfold try_catch, bind, ret.
  destruct (initializeTables _ w) as [[[]|e] w1 ev1];
    [| by rewrite app_nil_r].
  destruct (stats_data_handler JSON_parse c w1) as [[response|e'] w2 ev2];
    cbn [Datatypes.app]; by rewrite ?app_nil_r.
Qed.

(** The handler of POST /check written out for a body that passes the two
    checks on [domains]. *)
Lemma check_handler_run get api c w domains :
  req_json c = Some (domains_array domains) →
  (length domains ≤ 100)%nat →
  check_handler get api c w =
    match checkRateLimit (c_env (req_env c)) (client_ip c)
            (Z.of_nat (length domains)) RATE_LIMIT_MAX_DOMAINS
            RATE_LIMIT_WINDOW_MINUTES w with
    | mkRun (Thrown _) w1 ev1 =>
        mkRun (Returned (json (body_error "Internal server error") 500)) w1 ev1
    | mkRun (Returned rateLimit) w1 ev1 =>
        if allowed rateLimit then
          match check_loop get api (length domains) 0 domains
                  (mkTally [] 0 0 0 0) w1 with
          | mkRun (Thrown _) w2 ev2 =>
              mkRun (Returned (json (body_error "Internal server error") 500))
                w2 (ev1 ++ ev2)
          | mkRun (Returned tally) w2 ev2 =>
              match incrementStats (c_env (req_env c))
                      (mkStatsDelta (Some 1) (Some (processed tally))
                         (Some (n_blocked tally)) (Some (n_notBlocked tally))
                         (Some (n_errors tally))) w2 with
              | mkRun (Thrown _) w3 ev3 =>
                  mkRun (Returned (json (body_error "Internal server error")
                                     500)) w3 (ev1 ++ ev2 ++ ev3)
              | mkRun (Returned _) w3 ev3 =>
                  mkRun (Returned (json (body_results (results tally)
                                           (remaining rateLimit)
                                           (resetTime rateLimit)) 200))
                    w3 (ev1 ++ ev2 ++ ev3)
              end
          end
        else
          mkRun (Returned (json (body_rate_limited "Rate limit exceeded"
                                   (remaining rateLimit) (resetTime rateLimit))
                             429)) w1 ev1
    end.
Proof.
  intros Hreq Hlen. unfold check_handler, client_ip. rewrite Hreq.
  assert (Hmax : (MAX_DOMAINS_PER_REQUEST <? Z.of_nat (length domains)) = false)
    by (apply Z.ltb_ge; unfold MAX_DOMAINS_PER_REQUEST; lia).
  rewrite Hmax. unfold try_catch, bind, ret.
  destruct (checkRateLimit _ _ _ _ _ w) as [[res|e] w1 ev1];
    [| by rewrite app_nil_r].
  destruct (allowed res); cbn [negb]; [| by rewrite app_nil_r].
  destruct (check_loop _ _ _ _ _ _ w1) as [[tally|e] w2 ev2];
    [| by rewrite app_nil_r].
  destruct (incrementStats _ _ w2) as [[[]|e] w3 ev3];
    by rewrite ?app_nil_r.
Qed.

(** X18.  A request that is answered with status 400 or 429 has made no
    lookup: whatever the store does, the lookup service is not contacted
    for a request that is refused. *)
Theorem refused_request_makes_no_lookup get JSON_parse api c w body st :
  let r := app get JSON_parse api c w in
  outcome r = Returned (json body st) →
  st = 400 ∨ st = 429 →
  ∀ query, ¬ In (Fetched query) (events r).
Proof.
  cbv zeta. intros Hout Hst.
  cut (Forall is_statement (events (app get JSON_parse api c w))).
  { intros Hall query Hin. rewrite List.Forall_forall in Hall.
    exact (Hall _ Hin). }
  revert Hout.
  pose proof (emits_initializeTables is_statement (λ _ _, I)
                (getEnvVars (req_env c)) w) as Hev1. revert Hev1.
  destruct (route c) eqn:Hroute.
  - rewrite app_check_run by done.
    destruct (initializeTables _ w) as [[[]|e] w1 ev1]; cbn [events outcome];
      [| intros _ [= <- <-]; destruct Hst; discriminate].
    intros Hev1.
    pose proof (emits_incrementStats is_statement (λ _ _, I)
                  (getEnvVars (req_env c))
                  (mkStatsDelta (Some 1) None None None None) w1) as Hev2.
    destruct (incrementStats _ _ w1) as [o2 w2 ev2]. cbn [events] in Hev2.
    pose proof (check_handler_refusal_events get api c w2) as Hh.
    destruct (check_handler get api c w2) as [[[b s]|e'] w3 ev3];
      cbn [outcome events] in *.
    + intros [= -> ->]. specialize (Hh _ _ eq_refl Hst).
      by repeat apply Forall_app_2.
    + intros [= <- <-]. destruct Hst; discriminate.
  - rewrite app_stats_data_run by done.
    destruct (initializeTables _ w) as [[[]|e] w1 ev1]; cbn [events outcome];
      [| intros _ [= <- <-]; destruct Hst; discriminate].
    intros _. unfold stats_data_handler, try_catch, bind.
    destruct (getStats _ w1) as [[stats|e] w2 ev2].
    + destruct (JSON_parse _); cbn [ret throw outcome];
        intros [= <- <-]; destruct Hst; discriminate.
    + cbn [ret outcome]. intros [= <- <-]; destruct Hst; discriminate.
Qed.

Lemma refused_request_makes_no_lookup_witness :
  ¬ In (Fetched "good.com")
      (events (app own_property parse_empty_array mock_api
                 (post_check (repeat "good.com" 101)) seeded_world)).
Proof.
  apply (refused_request_makes_no_lookup own_property parse_empty_array
           mock_api (post_check (repeat "good.com" 101)) seeded_world
           (body_error "Maximum 100 domains per request") 400).
  - vm_compute. reflexivity.
  - left. reflexivity.
Defined.

(** *** The results of a request and how they are counted *)

Lemma Forall2_map_self {A B} (P : A → B → Prop) (f : A → B) l :
  (∀ x, P x (f x)) → Forall2 P l (map f l).
Proof. intros Hf. induction l; cbn [map]; by constructor. Qed.

(** A batch makes one lookup, for the batch joined with commas, never
    throws, leaves the world alone and returns one well formed result per
    domain. *)
Lemma checkBatch_run {W} get api n domains (w : W) :
  ∃ batchResults,
    checkBatch get api n domains w =
      mkRun (Returned batchResults) w [lookup_of domains]
    ∧ Forall2 result_for domains batchResults.
Proof.
  batch_unfold. unfold lookup_of.
  destruct (api n (String.concat "," domains)) as [|[|] statusText [data|]];
    cbn [negb]; try destruct (is_object data); cbn [negb Datatypes.app];
    eexists; (split; [reflexivity |]);
    apply Forall2_map_self; intros domain; unfold result_for, well_formed;
    try (split; [reflexivity | left; cbn; by auto]).
  destruct (is_object (get data domain)); cbn [negb];
    (split; [reflexivity |]); [right | left]; cbn; by auto.
Qed.

Lemma number_of_app p rs rs' :
  number_of p (rs ++ rs') = number_of p rs + number_of p rs'.
Proof.
  unfold number_of. rewrite List.filter_app, length_app. lia.
Qed.

Lemma number_of_cons p r rs :
  number_of p (r :: rs) = (if p r then 1 else 0) + number_of p rs.
Proof.
  unfold number_of. cbn [List.filter]. destruct (p r); cbn [length]; lia.
Qed.

(** The counting loop over the results of a batch. *)
Lemma fold_count_result batchResults : ∀ acc,
  fold_left count_result batchResults acc =
    mkTally (results acc)
      (processed acc + Z.of_nat (length batchResults))
      (n_blocked acc + number_of counts_as_blocked batchResults)
      (n_notBlocked acc + number_of counts_as_not_blocked batchResults)
      (n_errors acc + number_of counts_as_error batchResults).
Proof.
  induction batchResults as [|r rs IH]; intros acc.
  - destruct acc. unfold number_of. cbn. f_equal; lia.
  - cbn [fold_left]. rewrite IH, !number_of_cons.
    unfold count_result, counts_as_blocked, counts_as_not_blocked,
      counts_as_error.
    destruct (DomainCheckResult.error r), (truthy (DomainCheckResult.blocked r));
      cbn [negb andb results processed n_blocked n_notBlocked n_errors length];
      f_equal; lia.
Qed.

Lemma tally_no_results acc :
  mkTally (results acc ++ [])
    (processed acc + Z.of_nat (length (@nil DomainCheckResult.t)))
    (n_blocked acc + number_of counts_as_blocked [])
    (n_notBlocked acc + number_of counts_as_not_blocked [])
    (n_errors acc + number_of counts_as_error []) = acc.
Proof.
  destruct acc. unfold number_of. cbn [List.filter length results processed
    n_blocked n_notBlocked n_errors].
  change (Z.of_nat 0) with 0. by rewrite app_nil_r, !Z.add_0_r.
Qed.

(** The loop of the handler, given enough rounds: it does not throw, it
    leaves the world alone, and it returns one well formed result for each
    domain from position [i] on, counted by kind. *)
Lemma check_loop_tally get api domains fuel : ∀ i acc w,
  (length domains ≤ i + fuel * batchSize)%nat →
  ∃ rs ev,
    check_loop get api fuel i domains acc w =
      mkRun (Returned
               (mkTally (results acc ++ rs)
                  (processed acc + Z.of_nat (length rs))
                  (n_blocked acc + number_of counts_as_blocked rs)
                  (n_notBlocked acc + number_of counts_as_not_blocked rs)
                  (n_errors acc + number_of counts_as_error rs))) w ev
    ∧ Forall2 result_for (drop i domains) rs.
Proof.
  induction fuel as [|fuel IH]; intros i acc w Hfuel; cbn [check_loop].
  - exists [], []. rewrite drop_ge by lia. split; [| constructor].
    unfold ret. by rewrite tally_no_results.
  - destruct (i <? length domains)%nat eqn:Hi.
    + destruct (checkBatch_run get api (i / batchSize)
                  (slice i (i + batchSize) domains) w) as (brs & Hb & Hbrs).
      destruct (IH (i + batchSize)%nat
                  (push_results (fold_left count_result brs acc) brs) w)
        as (rs & ev & Hloop & Hrs); [lia |].
      exists (brs ++ rs)%list, (lookup_of (slice i (i + batchSize) domains) :: ev).
      split.
      * unfold bind. rewrite Hb, Hloop. rewrite fold_count_result.
        cbn [push_results results processed n_blocked n_notBlocked n_errors
             Datatypes.app].
        rewrite !number_of_app, length_app, <- app_assoc.
        do 3 f_equal; lia.
      * rewrite <- (take_drop batchSize (drop i domains)).
        apply Forall2_app.
        -- unfold slice in Hbrs.
           by replace (i + batchSize - i)%nat with batchSize in Hbrs by lia.
        -- by rewrite drop_drop.
    + apply Nat.ltb_ge in Hi. exists [], []. rewrite drop_ge by lia.
      split; [| constructor].
      unfold ret. by rewrite tally_no_results.
Qed.

(** The lookups of the loop: one for each batch, in order, where the
    batches are consecutive runs of the domains from position [i] on, all
    of [batchSize] domains but possibly the last, and none empty. *)
Lemma check_loop_events get api domains fuel : ∀ i acc w,
  (length domains ≤ i + fuel * batchSize)%nat →
  ∃ batches,
    events (check_loop get api fuel i domains acc w) = map lookup_of batches
    ∧ concat batches = drop i domains
    ∧ Forall (λ batch, batch ≠ [] ∧ (length batch ≤ batchSize)%nat) batches
    ∧ Forall (λ batch, length batch = batchSize) (removelast batches).
Proof.
  induction fuel as [|fuel IH]; intros i acc w Hfuel; cbn [check_loop].
  - exists []. rewrite drop_ge by lia. by repeat split; constructor.
  - destruct (i <? length domains)%nat eqn:Hi.
    + apply Nat.ltb_lt in Hi.
      destruct (checkBatch_run get api (i / batchSize)
                  (slice i (i + batchSize) domains) w) as (brs & Hb & _).
      destruct (IH (i + batchSize)%nat
                  (push_results (fold_left count_result brs acc) brs) w)
        as (batches & Hev & Hcat & Hlen & Hfull); [lia |].
      exists (slice i (i + batchSize) domains :: batches).
      unfold bind. rewrite Hb.
      destruct (check_loop _ _ _ _ _ _ w) as [o w' ev]. cbn [events] in *.
      assert (Hslice : slice i (i + batchSize) domains
                       = take batchSize (drop i domains)).
      { unfold slice. by replace (i + batchSize - i)%nat with batchSize by lia. }
      repeat split.
      * cbn [Datatypes.app map]. by rewrite Hev.
      * cbn [concat]. rewrite Hcat, Hslice, <- drop_drop. apply take_drop.
      * constructor; [| exact Hlen]. rewrite Hslice. split.
        -- intros Hnil. apply (f_equal length) in Hnil.
           rewrite length_take, length_drop in Hnil. cbn [length] in Hnil.
           unfold batchSize in Hnil. lia.
        -- rewrite length_take. lia.
      * destruct batches as [|batch batches']; [constructor |].
        change (removelast (?b :: batch :: batches'))
          with (b :: removelast (batch :: batches')).
        constructor; [| exact Hfull].
        rewrite Hslice, length_take, length_drop.
        apply Forall_cons in Hlen as [[Hne _] _].
        assert (Hrest : drop (i + batchSize) domains ≠ []).
        { rewrite <- Hcat. cbn [concat]. destruct batch; [done | discriminate]. }
        assert (i + batchSize < length domains)%nat.
        { destruct (Nat.lt_ge_cases (i + batchSize) (length domains));
            [done |]. by rewrite drop_ge in Hrest. }
        lia.
    + apply Nat.ltb_ge in Hi. exists []. rewrite drop_ge by lia.
      by repeat split; constructor.
Qed.

(** *** Requests on a store that answers *)

Lemma lookups_statements evs : Forall is_statement evs → lookups evs = [].
Proof.
  unfold lookups. induction 1 as [|e evs He _ IH]; [reflexivity |].
  cbn [omap list_omap]. by destruct e.
Qed.

Lemma lookups_app evs evs' : lookups (evs ++ evs') = (lookups evs ++ lookups evs')%list.
Proof. apply omap_app. Qed.

Lemma lookups_lookup_of batches :
  lookups (map lookup_of batches) = map (String.concat ",") batches.
Proof.
  unfold lookups. induction batches as [|b bs IH]; [reflexivity |].
  cbn [map omap list_omap lookup_of]. by f_equal.
Qed.

(** X22.  The lookups of a request that is answered with results, whatever
    the store does: the domains are cut into consecutive batches of 30, the
    last one holding what is left, no batch is empty, and the lookup service
    is asked once per batch, in order, for the domains of the batch joined
    with commas. *)
Theorem lookups_follow_batches get JSON_parse api c w domains rs rem rt st :
  route c = POST_check →
  req_json c = Some (domains_array domains) →
  let r := app get JSON_parse api c w in
  outcome r = Returned (json (body_results rs rem rt) st) →
  ∃ batches,
    lookups (events r) = map (String.concat ",") batches
    ∧ concat batches = domains
    ∧ Forall (λ batch, batch ≠ [] ∧ (length batch ≤ 30)%nat) batches
    ∧ Forall (λ batch, length batch = 30%nat) (removelast batches).
Proof.
  intros Hroute Hreq. cbv zeta.
  rewrite app_check_run by done.
  pose proof (emits_initializeTables is_statement (λ _ _, I)
                (getEnvVars (req_env c)) w) as Hev1.
  destruct (initializeTables _ w) as [[[]|e] w1 ev1]; [| discriminate].
  pose proof (emits_incrementStats is_statement (λ _ _, I)
                (getEnvVars (req_env c))
                (mkStatsDelta (Some 1) None None None None) w1) as Hev2.
  destruct (incrementStats _ _ w1) as [o2 w2 ev2].
  cbn [events] in Hev1, Hev2.
  destruct (le_lt_dec (length domains) 100) as [Hlen|Hlen].
  - rewrite (check_handler_run get api c w2 domains Hreq Hlen).
    pose proof (emits_checkRateLimit is_statement (λ _ _, I)
                  (c_env (req_env c)) (client_ip c)
                  (Z.of_nat (length domains)) RATE_LIMIT_MAX_DOMAINS
                  RATE_LIMIT_WINDOW_MINUTES w2) as Hev3.
    destruct (checkRateLimit _ _ _ _ _ w2) as [[res|e] w3 ev3];
      [| discriminate].
    destruct (allowed res); [| discriminate].
    destruct (check_loop_events get api domains (length domains) 0%nat
                (mkTally [] 0 0 0 0) w3)
      as (batches & Hev4 & Hcat & Hlens & Hfull); [unfold batchSize; lia |].
    destruct (check_loop _ _ _ _ _ _ w3) as [[tally|e] w4 ev4];
      [| discriminate].
    pose proof (emits_incrementStats is_statement (λ _ _, I)
                  (c_env (req_env c))
                  (mkStatsDelta (Some 1) (Some (processed tally))
                     (Some (n_blocked tally)) (Some (n_notBlocked tally))
                     (Some (n_errors tally))) w4) as Hev5.
    destruct (incrementStats _ _ w4) as [[[]|e] w5 ev5]; [| discriminate].
    cbn [outcome events] in *. intros _. exists batches.
    split; [| by rewrite drop_0 in Hcat].
    rewrite !lookups_app, Hev4, lookups_lookup_of.
    rewrite !lookups_statements by done. cbn [Datatypes.app].
    by rewrite app_nil_r.
  - unfold check_handler. rewrite Hreq.
    assert (Hmax : (MAX_DOMAINS_PER_REQUEST <? Z.of_nat (length domains)) = true)
      by (apply Z.ltb_lt; unfold MAX_DOMAINS_PER_REQUEST; lia).
    rewrite Hmax. discriminate.
Qed.

Lemma lookups_follow_batches_witness :
  ∃ batches,
    lookups (events (app own_property parse_empty_array mock_api
                       (post_check (repeat "good.com" 31)) seeded_world))
    = map (String.concat ",") batches
    ∧ concat batches = repeat "good.com" 31
    ∧ Forall (λ batch, batch ≠ [] ∧ (length batch ≤ 30)%nat) batches
    ∧ Forall (λ batch, length batch = 30%nat) (removelast batches).
Proof.
  eapply (lookups_follow_batches own_property parse_empty_array mock_api
            (post_check (repeat "good.com" 31)) seeded_world
            (repeat "good.com" 31)).
  - reflexivity.
  - reflexivity.
  - vm_compute. reflexivity.
Defined.

Lemma check_handler_well_formed get api c w domains rs rem rt st :
  req_json c = Some (domains_array domains) →
  outcome (check_handler get api c w) =
    Returned (json (body_results rs rem rt) st) →
  st = 200 ∧ Forall2 result_for domains rs.
Proof.
  intros Hreq. unfold check_handler. rewrite Hreq.
  destruct (MAX_DOMAINS_PER_REQUEST <? _); [discriminate |].
  unfold try_catch, bind.
  destruct (checkRateLimit _ _ _ _ _ w) as [[res|e] w1 ev1]; [| discriminate].
  destruct (allowed res); cbn [negb]; [| discriminate].
  destruct (check_loop_tally get api domains (length domains) 0%nat
              (mkTally [] 0 0 0 0) w1) as (rs' & ev2 & Hloop & Hrs);
    [unfold batchSize; lia |].
  rewrite Hloop.
  destruct (incrementStats _ _ w1) as [[[]|e] w2 ev3]; [| discriminate].
  cbn [ret outcome results Datatypes.app]. intros [= <- _ _ <-].
  by rewrite drop_0 in Hrs.
Qed.

(** X23.  Whatever the store and the lookup service do, a response that
    carries results has status 200, and each of its results is well formed:
    either an error, with [blocked = false] and one of the two error texts,
    or a verdict, whose text is "Blocked" when its [blocked] value is truthy
    and "Not Blocked" otherwise. *)
Theorem response_results_well_formed get JSON_parse api c w domains rs rem rt st :
  route c = POST_check →
  req_json c = Some (domains_array domains) →
  outcome (app get JSON_parse api c w) =
    Returned (json (body_results rs rem rt) st) →
  st = 200 ∧ Forall well_formed rs.
Proof.
  intros Hroute Hreq. rewrite app_check_run by done.
  destruct (initializeTables _ w) as [[[]|e] w1 ev1]; [| discriminate].
  destruct (incrementStats _ _ w1) as [o2 w2 ev2].
  pose proof (check_handler_well_formed get api c w2 domains rs rem rt st Hreq)
    as Hh.
  destruct (check_handler get api c w2) as [[response|e] w3 ev3];
    [| discriminate].
  cbn [outcome] in *. intros [= ->]. destruct (Hh eq_refl) as [-> Hrs].
  split; [reflexivity |].
  clear -Hrs. induction Hrs as [|d r ds rs [_ Hr] _ IH]; by constructor.
Qed.

Lemma response_results_well_formed_witness :
  Forall well_formed
    [DomainCheckResult.mk "good.com" "Error: API request failed" (VBool false)
       true].
Proof.
  apply (response_results_well_formed own_property parse_empty_array
           failing_api (post_check ["good.com"]) seeded_world ["good.com"]
           _ 999 605000 200).
  - reflexivity.
  - reflexivity.
  - vm_compute. reflexivity.
Defined.

Lemma lookup_map {A B} (f : A → B) (l : list A) (k : nat) :
  map f l !! k = f <$> l !! k.
Proof. exact (list_lookup_fmap f l k). Qed.

(** X24.  When a result of [checkBatch] is a verdict.  The result at a
    position of the batch is not an error exactly when the lookup was
    answered with a success status and a JSON object that holds an object
    under the name of the domain at that position; the result is then the
    domain, the [blocked] value found in that object, and the text that goes
    with its truthiness. *)
Theorem checkBatch_verdict {W} get api n domains (w : W) rs k r :
  outcome (checkBatch get api n domains w) = Returned rs →
  rs !! k = Some r →
  DomainCheckResult.error r = false
  ↔ ∃ statusText data domain,
      api n (String.concat "," domains) = Response true statusText (Some data)
      ∧ is_object data = true
      ∧ domains !! k = Some domain
      ∧ is_object (get data domain) = true
      ∧ r = DomainCheckResult.mk domain
              (if truthy (get (get data domain) "blocked")
               then "Blocked" else "Not Blocked")
              (get (get data domain) "blocked") false.
Proof.
  batch_unfold.
  destruct (api n (String.concat "," domains)) as [|[|] statusText [data|]];
    cbn [negb]; try destruct (is_object data) eqn:Hdata;
    cbn [negb Datatypes.app outcome]; intros [= <-] Hk.
  all: rewrite lookup_map in Hk.
  all: destruct (domains !! k) as [domain|] eqn:Hd; [| discriminate Hk].
  all: cbn [fmap option_fmap option_map] in Hk; injection Hk as <-.
  all: try solve [split; [discriminate | intros (? & ? & ? & [=] & _)]].
  - destruct (is_object (get data domain)) eqn:Hobj; cbn [negb].
    + split; [| done]. intros _. by exists statusText, data, domain.
    + split; [discriminate |].
      intros (? & ? & ? & [= <- <-] & _ & [= <-] & Hobj' & _). congruence.
  - split; [discriminate |].
    intros (? & ? & ? & [= <- <-] & Hdata' & _). congruence.
Qed.

Lemma checkBatch_verdict_witness :
  ∃ statusText data domain,
    mock_api 0 (String.concat "," ["good.com"; "bad.com"])
      = Response true statusText (Some data)
    ∧ is_object data = true
    ∧ ["good.com"; "bad.com"] !! 1%nat = Some domain
    ∧ is_object (own_property data domain) = true
    ∧ DomainCheckResult.mk "bad.com" "Blocked" (VBool true) false
      = DomainCheckResult.mk domain
          (if truthy (own_property (own_property data domain) "blocked")
           then "Blocked" else "Not Blocked")
          (own_property (own_property data domain) "blocked") false.
Proof.
  apply (checkBatch_verdict own_property mock_api 0 ["good.com"; "bad.com"]
           seeded_world
           [DomainCheckResult.mk "good.com" "Not Blocked" (VBool false) false;
            DomainCheckResult.mk "bad.com" "Blocked" (VBool true) false]
           1%nat).
  - vm_compute. reflexivity.
  - reflexivity.
  - reflexivity.
Defined.

(** *** Failures of the store while a request is handled *)

Lemma checkRateLimit_not_on_stats env ip d maxD win w :
  Forall (λ e, match e with Executed s _ => ¬ on_stats s | _ => True end)
    (events (checkRateLimit env ip d maxD win w)).
Proof.
  unfold checkRateLimit. js_run; repeat constructor; by intros [].
Qed.

Lemma incrementStats_keeps_rate_limits env delta w :
  rate_limits_table (database (world (incrementStats env delta w))) =
  rate_limits_table (database w).
Proof. unfold incrementStats. js_run; reflexivity. Qed.

Lemma incrementStats_failed_statement env delta w :
  (∃ s, In (Executed s false) (events (incrementStats env delta w))) →
  ∃ message, outcome (incrementStats env delta w) = Thrown message.
Proof.
  unfold incrementStats. js_run.
  all: first [intros _; eexists; reflexivity | intros H; js_events].
Qed.

(** X25.  When a statement on the [stats] table throws while the handler
    of POST /check runs, the request is answered with status 500 and the
    error "Internal server error", with no results, although by then the
    lookups have been made (at least one for a list that is not empty) and
    the rate limiter has counted the domains: what it wrote to the rate
    limits stays. *)
Theorem stats_failure_discards_results get api c w domains s :
  req_json c = Some (domains_array domains) →
  (length domains ≤ 100)%nat →
  on_stats s →
  let r := check_handler get api c w in
  In (Executed s false) (events r) →
  outcome r = Returned (json (body_error "Internal server error") 500)
  ∧ rate_limits_table (database (world r)) =
      rate_limits_table
        (database
           (world (checkRateLimit (c_env (req_env c)) (client_ip c)
                     (Z.of_nat (length domains)) RATE_LIMIT_MAX_DOMAINS
                     RATE_LIMIT_WINDOW_MINUTES w)))
  ∧ (domains ≠ [] → lookups (events r) ≠ []).
Proof.
  intros Hreq Hlen Hs. cbv zeta.
  rewrite (check_handler_run get api c w domains Hreq Hlen).
  pose proof (checkRateLimit_not_on_stats (c_env (req_env c)) (client_ip c)
                (Z.of_nat (length domains)) RATE_LIMIT_MAX_DOMAINS
                RATE_LIMIT_WINDOW_MINUTES w) as Hev1.
  rewrite List.Forall_forall in Hev1.
  destruct (checkRateLimit _ _ _ _ _ w) as [[res|e] w1 ev1];
    cbn [events outcome world] in *;
    [| intros Hin; by destruct (Hev1 _ Hin)].
  destruct (allowed res); cbn [events];
    [| intros Hin; by destruct (Hev1 _ Hin)].
  destruct (check_loop_tally get api domains (length domains) 0%nat
              (mkTally [] 0 0 0 0) w1) as (rs & ev2 & Hloop & _);
    [unfold batchSize; lia |].
  destruct (check_loop_events get api domains (length domains) 0%nat
              (mkTally [] 0 0 0 0) w1) as (batches & Hev2 & Hcat & _);
    [unfold batchSize; lia |].
  rewrite Hloop in Hev2 |- *. cbn [events] in Hev2. subst ev2.
  rewrite drop_0 in Hcat.
  pose proof (incrementStats_keeps_rate_limits (c_env (req_env c))
                (mkStatsDelta (Some 1)
                   (Some (processed (mkTally [] 0 0 0 0) + Z.of_nat (length rs)))
                   (Some (n_blocked (mkTally [] 0 0 0 0)
                          + number_of counts_as_blocked rs))
                   (Some (n_notBlocked (mkTally [] 0 0 0 0)
                          + number_of counts_as_not_blocked rs))
                   (Some (n_errors (mkTally [] 0 0 0 0)
                          + number_of counts_as_error rs))) w1) as Htable.
  pose proof (incrementStats_failed_statement (c_env (req_env c))
                (mkStatsDelta (Some 1)
                   (Some (processed (mkTally [] 0 0 0 0) + Z.of_nat (length rs)))
                   (Some (n_blocked (mkTally [] 0 0 0 0)
                          + number_of counts_as_blocked rs))
                   (Some (n_notBlocked (mkTally [] 0 0 0 0)
                          + number_of counts_as_not_blocked rs))
                   (Some (n_errors (mkTally [] 0 0 0 0)
                          + number_of counts_as_error rs))) w1) as Hthrown.
  cbn [processed n_blocked n_notBlocked n_errors results] in *.
  destruct (incrementStats _ _ w1) as [o w3 ev3].
  cbn [outcome world events] in *.
  assert (Hlookups : ∀ evs, domains ≠ [] →
            lookups (ev1 ++ map lookup_of batches ++ evs) ≠ []).
  { intros evs Hne. rewrite !lookups_app, lookups_lookup_of.
    destruct batches as [|batch batches']; [by cbn [concat] in Hcat |].
    cbn [map]. intros Hnil. apply app_eq_nil in Hnil as [_ Hnil].
    discriminate Hnil. }
  intros Hin.
  assert (Hin3 : In (Executed s false) ev3).
  { assert (Hin' : In (Executed s false) (ev1 ++ map lookup_of batches ++ ev3))
      by (by destruct o). clear Hin. rename Hin' into Hin.
    apply in_app_or in Hin as [Hin | Hin]; [by destruct (Hev1 _ Hin) |].
    apply in_app_or in Hin as [Hin | Hin]; [| exact Hin].
    apply in_map_iff in Hin as (batch & [=] & _). }
  destruct Hthrown as [message ->]; [by exists s |].
  cbn [outcome world events]. repeat split; [exact Htable | apply Hlookups].
Qed.

Lemma stats_failure_discards_results_witness :
  let r := check_handler own_property mock_api (post_check ["good.com"])
             (mkWorld (database seeded_world) true [false; false; false; true]
                5000) in
  outcome r = Returned (json (body_error "Internal server error") 500)
  ∧ stored_rate_limit "203.0.113.7" (world r) = Some (mkRateLimit 1 5000)
  ∧ lookups (events r) = ["good.com"].
Proof.
  cbv zeta.
  destruct (stats_failure_discards_results own_property mock_api
              (post_check ["good.com"])
              (mkWorld (database seeded_world) true
                 [false; false; false; true] 5000)
              ["good.com"] SelectStatsId) as (Hout & _ & _).
  - reflexivity.
  - apply Nat.leb_le. reflexivity.
  - exact I.
  - vm_compute. do 4 right. left. reflexivity.
  - split; [exact Hout |]. vm_compute. split; reflexivity.
Defined.

(** X26.  When a statement issued by [getStats] throws while GET
    /stats/data is handled, the request is answered with status 500, the
    error "Failed to get stats" and, as details, the message of [getStats],
    which itself starts with "Failed to get stats: ". *)
Theorem stats_data_failure_is_500 JSON_parse c w :
  let r := stats_data_handler JSON_parse c w in
  (∃ s, In (Executed s false) (events r)) →
  ∃ message,
    outcome r =
      Returned (json (body_error_details "Failed to get stats"
                        ("Failed to get stats: " +:+ message)) 500).
Proof.
  cbv zeta. unfold stats_data_handler, getStats. js_run.
  all: try destruct (JSON_parse _); js_simp.
  all: first [intros _; eexists; reflexivity | intros H; js_events].
Qed.

Lemma stats_data_failure_is_500_witness :
  outcome (stats_data_handler parse_empty_array get_stats_data
             (mkWorld (database seeded_world) true [true] 5000))
  = Returned (json (body_error_details "Failed to get stats"
                      "Failed to get stats: store unavailable") 500).
Proof.
  destruct (stats_data_failure_is_500 parse_empty_array get_stats_data
              (mkWorld (database seeded_world) true [true] 5000))
    as [message Hout].
  - exists SelectStatsAll. vm_compute. left. reflexivity.
  - rewrite Hout. vm_compute in Hout. injection Hout as ->. reflexivity.
Defined.

(** ** The key-value backed worker *)

(** X27.  The key-value backed rate limiter starts a window for a client
    that has no entry inside its window, whatever the number of domains:
    the entry [(domainCount, now)] goes to the cache and, with a TTL of 600
    seconds, to the namespace, the entries of the other clients stay, and
    the call answers [allowed = (domainCount <= 1000)],
    [remaining = 1000 - domainCount] and [resetTime = now + window].  A
    request for more than 1000 domains is so refused and recorded at once,
    with a count above the maximum. *)
Theorem kv_checkRateLimit_fresh_window ip d w :
  kv_no_live_entry ip w →
  healthy 1 (KV.faults w) = true →
  let r := KV.checkRateLimit ip d w in
  outcome r =
    Returned (KV.mkRateLimitResult (d <=? KV.RATE_LIMIT_MAX_DOMAINS)
                (KV.RATE_LIMIT_MAX_DOMAINS - d)
                (KV.clock w + window KV.RATE_LIMIT_WINDOW_MINUTES))
  ∧ KV.rateLimitCache (world r) =
      <[kv_key ip := KV.mkRateLimitData d (KV.clock w)]> (KV.rateLimitCache w)
  ∧ KV.RATE_LIMIT_STORE (world r) =
      <[kv_key ip := (KV.mkRateLimitData d (KV.clock w), 600)]>
        (KV.RATE_LIMIT_STORE w)
  ∧ KV.statsCache (world r) = KV.statsCache w
  ∧ KV.STATS_STORE (world r) = KV.STATS_STORE w.
Proof.
  intros Hfresh Hh. cbv zeta.
  unfold KV.checkRateLimit, kv_no_live_entry, kv_key, window in *.
  kv_unfold. kv_cbn.
  destruct (KV.rateLimitCache w !! ("rate_limit:" +:+ ip)) as [usage|] eqn:Hu.
  - specialize (Hfresh usage eq_refl). apply Z.ltb_lt in Hfresh.
    rewrite Hfresh.
    destruct (KV.faults w) as [|[|] fs]; try discriminate Hh; kv_cbn; done.
  - destruct (KV.faults w) as [|[|] fs]; try discriminate Hh; kv_cbn; done.
Qed.

Lemma kv_checkRateLimit_fresh_window_witness :
  let r := KV.checkRateLimit "198.51.100.2" 1500 kv_world_with_entry in
  outcome r = Returned (KV.mkRateLimitResult false (-500) 602000)
  ∧ KV.rateLimitCache (world r) !! kv_key "198.51.100.2" =
      Some (KV.mkRateLimitData 1500 2000).
Proof.
  destruct (kv_checkRateLimit_fresh_window "198.51.100.2" 1500
              kv_world_with_entry) as (Hout & Hcache & _).
  - intros usage Hu. vm_compute in Hu. discriminate Hu.
  - reflexivity.
  - cbv zeta. split; [exact Hout |]. rewrite Hcache.
    apply lookup_insert_eq.
Defined.

(** The key-value backed rate limiter refuses a client whose entry
    is inside its window and would go over 1000: it answers
    [allowed = false], [remaining = 1000 - entry.count] and
    [resetTime = entry.timestamp + window], and it touches neither cache
    nor namespace, whether the namespace answers or not. *)
Theorem kv_checkRateLimit_rejects ip d w usage :
  KV.rateLimitCache w !! kv_key ip = Some usage →
  KV.clock w - window KV.RATE_LIMIT_WINDOW_MINUTES ≤ KV.timestamp usage →
  KV.RATE_LIMIT_MAX_DOMAINS < KV.count usage + d →
  KV.checkRateLimit ip d w =
    mkRun (Returned (KV.mkRateLimitResult false
                       (KV.RATE_LIMIT_MAX_DOMAINS - KV.count usage)
                       (KV.timestamp usage
                        + window KV.RATE_LIMIT_WINDOW_MINUTES))) w [].
Proof.
  intros Hu Hlive Hover. unfold KV.checkRateLimit, kv_key, window in *.
  apply Z.ltb_ge in Hlive. apply Z.ltb_lt in Hover.
  kv_unfold. kv_cbn. by rewrite Hu, Hlive, Hover.
Qed.

Lemma kv_checkRateLimit_rejects_witness :
  KV.checkRateLimit "203.0.113.7" 996 kv_world_with_entry =
    mkRun (Returned (KV.mkRateLimitResult false 995 601000))
      kv_world_with_entry [].
Proof.
  apply (kv_checkRateLimit_rejects "203.0.113.7" 996 kv_world_with_entry
           (KV.mkRateLimitData 5 1000)).
  - reflexivity.
  - vm_compute. discriminate.
  - vm_compute. reflexivity.
Defined.

Lemma existsb_eqb_elem_of (s : string) (l : list string) :
  existsb (String.eqb s) l = true ↔ s ∈ l.
Proof.
  rewrite existsb_exists. split.
  - intros (x & Hin & Heq). apply String.eqb_eq in Heq as ->.
    by apply list_elem_of_In.
  - intros Hin. exists s. split; [by apply list_elem_of_In |].
    apply String.eqb_refl.
Qed.

(** X28.  In the key-value backed worker a POST that is turned away by the
    rate limiter is counted all the same: the request is answered with
    status 429, [remaining = 1000 - entry.count] and
    [resetTime = entry.timestamp + window], no lookup is made and nothing is
    written to a namespace, but in the cached statistics [totalRequests] has
    gone up by one, [totalDomainsChecked] by the number of domains
    submitted, and the client is among the recorded users, added at the end
    if it was not there. *)
Theorem kv_rate_limited_is_still_counted get api c w stats usage domains :
  KV.route c = POST_check →
  KV.req_json c = Some (domains_array domains) →
  domains ≠ [] →
  KV.statsCache w = Some stats →
  KV.rateLimitCache w !! kv_key (kv_client_ip c) = Some usage →
  KV.clock w - window KV.RATE_LIMIT_WINDOW_MINUTES ≤ KV.timestamp usage →
  KV.RATE_LIMIT_MAX_DOMAINS < KV.count usage + Z.of_nat (length domains) →
  let r := KV.app get api c w in
  outcome r =
    Returned (KV.json
                (KV.body_rate_limited "Rate limit exceeded" true
                   (KV.RATE_LIMIT_MAX_DOMAINS - KV.count usage)
                   (KV.timestamp usage + window KV.RATE_LIMIT_WINDOW_MINUTES))
                429)
  ∧ events r = []
  ∧ KV.rateLimitCache (world r) = KV.rateLimitCache w
  ∧ ∃ users,
      KV.statsCache (world r) =
        Some (KV.mkStatsData (KV.totalRequests stats + 1)
                (KV.totalDomainsChecked stats + Z.of_nat (length domains))
                users (KV.blockedDomains stats) (KV.notBlockedDomains stats)
                (KV.errorDomains stats) (KV.lastReset stats))
      ∧ kv_client_ip c ∈ users
      ∧ (kv_client_ip c ∈ KV.uniqueUsers stats → users = KV.uniqueUsers stats)
      ∧ (kv_client_ip c ∉ KV.uniqueUsers stats →
         users = (KV.uniqueUsers stats ++ [kv_client_ip c])%list).
Proof.
  intros Hroute Hreq Hne Hcache Hu Hlive Hover. cbv zeta.
  unfold KV.app, KV.onError, KV.stats_middleware, KV.handler, KV.check_handler,
    KV.initializeStats, KV.checkRateLimit, kv_key, kv_client_ip, window in *.
  apply Z.ltb_ge in Hlive. apply Z.ltb_lt in Hover.
  rewrite Hroute, Hreq.
  destruct domains as [|domain domains]; [done |].
  cbn [length Nat.eqb] in *. kv_unfold. kv_cbn.
  repeat (rewrite Hcache; cbn [fmap option_fmap option_map]; kv_cbn).
  rewrite Hu, Hlive, Hover. kv_cbn. cbn [negb KV.allowed].
  repeat split.
  cbn [KV.totalRequests KV.totalDomainsChecked KV.uniqueUsers
       KV.blockedDomains KV.notBlockedDomains KV.errorDomains KV.lastReset].
  eexists. split; [reflexivity |].
  cbn [KV.totalRequests KV.totalDomainsChecked KV.uniqueUsers
       KV.blockedDomains KV.notBlockedDomains KV.errorDomains KV.lastReset].
  destruct (existsb _ (KV.uniqueUsers stats)) eqn:Hin.
  - apply existsb_eqb_elem_of in Hin. by repeat split.
  - assert (Hnot : or_string (KV.cf_connecting_ip c)
                     (or_string (KV.x_forwarded_for c) "unknown")
                   ∉ KV.uniqueUsers stats).
    { intros Hin'. apply existsb_eqb_elem_of in Hin'. congruence. }
    repeat split; [set_solver | done].
Qed.

Lemma kv_rate_limited_is_still_counted_witness :
  let w := KV.mkWorld (Some (KV.mkStatsData 7 12 ["198.51.100.2"] 3 8 1 0))
             {["rate_limit:203.0.113.7" := KV.mkRateLimitData 1000 1500]}
             ∅ ∅ [] 2000 in
  let r := KV.app own_property mock_api (kv_post_check ["good.com"]) w in
  outcome r =
    Returned (KV.json (KV.body_rate_limited "Rate limit exceeded" true 0 601500)
                429)
  ∧ KV.statsCache (world r) =
      Some (KV.mkStatsData 8 13 ["198.51.100.2"; "203.0.113.7"] 3 8 1 0).
Proof.
  cbv zeta.
  destruct (kv_rate_limited_is_still_counted own_property mock_api
              (kv_post_check ["good.com"])
              (KV.mkWorld (Some (KV.mkStatsData 7 12 ["198.51.100.2"] 3 8 1 0))
                 {["rate_limit:203.0.113.7" := KV.mkRateLimitData 1000 1500]}
                 ∅ ∅ [] 2000)
              (KV.mkStatsData 7 12 ["198.51.100.2"] 3 8 1 0)
              (KV.mkRateLimitData 1000 1500) ["good.com"])
    as (Hout & _ & _ & users & Hstats & _).
  - reflexivity.
  - reflexivity.
  - discriminate.
  - reflexivity.
  - reflexivity.
  - vm_compute. discriminate.
  - vm_compute. reflexivity.
  - split; [exact Hout |]. vm_compute. reflexivity.
Defined.

(** *** Invariants of the key-value backed worker *)

Lemma kv_count_status_users results : ∀ stats,
  KV.uniqueUsers (fold_left KV.count_status results stats) = KV.uniqueUsers stats.
Proof.
  induction results as [|r rs IH]; intros stats; [done |].
  cbn [fold_left]. rewrite IH. unfold KV.count_status.
  by destruct (String.eqb (KV.status r) "Blocked"),
    (String.eqb (KV.status r) "Not Blocked").
Qed.

(** An invariant that [initializeStats], the rate limiter and the updates
    of the statistics keep is kept by the whole application. *)
Section KvInvariant.
Context (I : KV.World → Prop).
Context (get : JsVal → string → JsVal) (api : nat → string → FetchOutcome).
Hypothesis keeps_initializeStats : preserves I KV.initializeStats.
Hypothesis keeps_checkRateLimit : ∀ ip d, preserves I (KV.checkRateLimit ip d).
Hypothesis keeps_update_stats :
  ∀ f, kv_appends_only f → preserves I (KV.update_stats f).

Ltac kv_preserves :=
  repeat first
    [ apply keeps_initializeStats
    | apply keeps_checkRateLimit
    | apply preserves_fetch
    | compose_step (@preserves_bind KV.World I) (@preserves_try_catch KV.World I)
        (@preserves_ret KV.World I) (@preserves_throw KV.World I)
    | match goal with
      | |- preserves _ (match ?x with _ => _ end) => destruct x
      end ].

Lemma preserves_kv_checkBatch n domains :
  preserves I (KV.checkBatch get api n domains).
Proof. unfold KV.checkBatch. kv_preserves. Qed.

Lemma preserves_kv_check_loop domains fuel : ∀ i results,
  preserves I (KV.check_loop get api fuel i domains results).
Proof.
  induction fuel as [|fuel IH]; intros i results; cbn [KV.check_loop].
  - apply preserves_ret.
  - destruct (i <? length domains)%nat; [| apply preserves_ret].
    apply preserves_bind; [apply preserves_kv_checkBatch | intros; apply IH].
Qed.

(** The three updates of the statistics that the worker makes. *)
Ltac kv_updater :=
  apply keeps_update_stats; intros stats; cbn [KV.uniqueUsers];
  first
    [ by left
    | left; apply kv_count_status_users
    | destruct (existsb _ (KV.uniqueUsers stats)) eqn:Hin; [by left |];
      right; eexists; split; [| reflexivity];
      intros Hin'; apply existsb_eqb_elem_of in Hin'; congruence ].

Lemma preserves_kv_check_handler c : preserves I (KV.check_handler get api c).
Proof.
  unfold KV.check_handler.
  destruct (KV.req_json c) as [[| |domains]|]; kv_preserves.
  all: first [apply preserves_kv_check_loop | kv_updater].
Qed.

Lemma preserves_kv_app c : preserves I (KV.app get api c).
Proof.
  unfold KV.app, KV.onError, KV.stats_middleware, KV.handler,
    KV.stats_data_handler.
  kv_preserves.
  all: first [ apply preserves_kv_check_handler
             | apply preserves_kv_check_loop
             | kv_updater ].
Qed.

End KvInvariant.

Lemma kv_checkRateLimit_frame ip d w :
  let r := KV.checkRateLimit ip d w in
  KV.statsCache (world r) = KV.statsCache w
  ∧ KV.STATS_STORE (world r) = KV.STATS_STORE w
  ∧ KV.clock (world r) = KV.clock w.
Proof.
  cbv zeta. unfold KV.checkRateLimit. kv_unfold. kv_cbn.
  destruct (KV.rateLimitCache w !! _) as [usage|];
    [destruct (_ <? _); [| destruct (_ <? _)] |];
    try destruct (KV.faults w) as [|[|] fs]; kv_cbn; done.
Qed.

Lemma kv_initializeStats_store_kept w0 :
  preserves (kv_store_kept w0) KV.initializeStats.
Proof.
  intros w [Hclock Hstore]. unfold kv_store_kept, KV.initializeStats.
  destruct (KV.statsCache w) as [stats|]; [done |].
  kv_unfold. kv_cbn.
  destruct (KV.faults w) as [|[|] fs]; kv_cbn; try done.
  all: destruct (KV.STATS_STORE w !! "global_stats") as [stats|] eqn:Hg;
    kv_cbn; try done.
  all: try destruct fs as [|[|] fs']; kv_cbn; try done.
  all: split; [done |]; right; rewrite Hclock.
  all: destruct Hstore as [Hsame | [_ Hseeded]];
    [ rewrite Hsame in Hg |- *; done
    | rewrite Hseeded, lookup_insert_eq in Hg; discriminate Hg ].
Qed.

(** X29.  Handling a request never writes the statistics the key-value
    backed worker keeps back to their namespace: whatever the request and
    whatever the namespaces do, when the request has been handled the
    namespace of the statistics is as it was before, or, if it had no record
    "global_stats", it holds the initial record, with every counter 0, no
    user and [lastReset] the time of the request.  What the requests add is
    in the cache only. *)
Theorem kv_stats_are_not_persisted get api c w :
  let r := KV.app get api c w in
  KV.STATS_STORE (world r) = KV.STATS_STORE w
  ∨ (KV.STATS_STORE w !! "global_stats" = None
     ∧ KV.STATS_STORE (world r) =
         <["global_stats" := kv_initial_stats (KV.clock w)]> (KV.STATS_STORE w)).
Proof.
  cbv zeta.
  assert (Hkept : kv_store_kept w (world (KV.app get api c w))).
  { apply (preserves_kv_app (kv_store_kept w)).
    - apply kv_initializeStats_store_kept.
    - intros ip d w' [Hclock Hstore].
      destruct (kv_checkRateLimit_frame ip d w') as (_ & Hs & Hc).
      unfold kv_store_kept. by rewrite Hs, Hc.
    - by intros f _ w' Hw'.
    - split; [reflexivity | by left]. }
  apply Hkept.
Qed.

Lemma kv_initializeStats_users_unique : preserves kv_users_unique KV.initializeStats.
Proof.
  intros w [Hcache Hstore]. unfold kv_users_unique, KV.initializeStats.
  destruct (KV.statsCache w) as [stats|] eqn:Hc.
  { kv_unfold. kv_cbn. rewrite Hc. by split. }
  kv_unfold. kv_cbn.
  destruct (KV.faults w) as [|[|] fs]; kv_cbn; rewrite ?Hc; try by split.
  all: destruct (KV.STATS_STORE w !! "global_stats") as [stats|] eqn:Hg;
    kv_cbn.
  all: try destruct fs as [|[|] fs']; kv_cbn; rewrite ?Hc; try by split.
  all: split; [intros ? [= <-]; first [by eapply Hstore | constructor] |];
    try done.
  all: intros key stats Hk; apply lookup_insert_Some in Hk as [[_ <-] | [_ Hk]];
    first [constructor | by eapply Hstore].
Qed.

(** X30.  The recorded users of the key-value backed worker stay distinct:
    if no client is listed twice in the cached statistics and in the
    records of the namespace, then that still holds after any request,
    whatever the namespaces and the lookup service do.  The number that GET
    /stats/data reports as [uniqueUsers] is so the number of distinct
    clients recorded. *)
Theorem kv_users_stay_unique get api c w :
  kv_users_unique w → kv_users_unique (world (KV.app get api c w)).
Proof.
  apply (preserves_kv_app kv_users_unique).
  - apply kv_initializeStats_users_unique.
  - intros ip d w' [Hcache Hstore].
    destruct (kv_checkRateLimit_frame ip d w') as (Hc & Hs & _).
    unfold kv_users_unique. by rewrite Hc, Hs.
  - intros f Hf w' [Hcache Hstore]. unfold kv_users_unique, KV.update_stats.
    kv_cbn. split; [| exact Hstore].
    intros stats Hstats. destruct (KV.statsCache w') as [stats'|]; [| done].
    cbn in Hstats. injection Hstats as <-.
    specialize (Hcache stats' eq_refl).
    destruct (Hf stats') as [-> | (ip & Hnew & ->)]; [done |].
    apply NoDup_app. repeat split; [done | | apply NoDup_singleton].
    intros x Hx Hx'. apply list_elem_of_singleton in Hx' as ->. done.
Qed.

Lemma kv_users_stay_unique_witness :
  kv_users_unique
    (world (KV.app own_property mock_api (kv_post_check ["good.com"])
              kv_world_with_users)).
Proof.
  apply (kv_users_stay_unique own_property mock_api
           (kv_post_check ["good.com"]) kv_world_with_users).
  split.
  - intros stats [= <-]. cbn [KV.uniqueUsers].
    apply NoDup_ListNoDup. repeat constructor; cbn; intuition discriminate.
  - intros key stats Hk. cbn [kv_world_with_users KV.STATS_STORE] in Hk.
    rewrite lookup_empty in Hk. discriminate Hk.
Defined.

(** * The statements on [stats] and the store *)

Ltac js_strict H :=
  js_simp; repeat (first [rewrite H | js_case]; js_simp).

(** Where double-quoted tokens are names of columns only, the second
    statement of [initializeTables] is rejected, if the run gets that far:
    the function throws, no row is seeded and [rate_limits] is not
    created. *)
Lemma initializeTables_strict env w :
  strict w →
  let r := initializeTables env w in
  (∃ message, outcome r = Thrown message)
  ∧ stored_row (world r) = stored_row w
  ∧ rate_limits_table (database (world r)) = rate_limits_table (database w)
  ∧ strict (world r).
Proof.
  unfold strict, stored_row. intros H. cbv zeta. unfold initializeTables.
  js_strict H.
  all: repeat (js_known; js_simp).
  all: repeat split; try done; by eexists.
Qed.

(** Every request to an API route is then answered with status 500 and
    the error "Database error". *)
Lemma app_strict get JSON_parse api c w :
  strict w →
  let r := app get JSON_parse api c w in
  (∃ details,
     outcome r = Returned (json (body_error_details "Database error" details) 500))
  ∧ stored_row (world r) = stored_row w
  ∧ rate_limits_table (database (world r)) = rate_limits_table (database w)
  ∧ events r = events (initializeTables (getEnvVars (req_env c)) w).
Proof.
  intros H. cbv zeta.
  destruct (initializeTables_strict (getEnvVars (req_env c)) w H)
    as ([message Hout] & Hrow & Ht & _).
  destruct (route c) eqn:Hroute;
    [rewrite app_check_run by done | rewrite app_stats_data_run by done].
  all: destruct (initializeTables _ w) as [o w1 ev1]; cbn [outcome world] in *;
    subst o; cbn [outcome world events]; repeat split; try done; by eexists.
Qed.

(** C9.  Where the store reads a double-quoted token as the name of a
    column only, as the libsql of the package does, [initializeTables]
    never gets to seed: each run throws, at the SELECT that writes "global"
    between double quotes when the store is reached, and however often it
    is run, [stats] holds no more rows than before and [rate_limits] is not
    created.  The row "global" that the claim expects after a run is not
    there. *)
Theorem initializeTables_seeds_nothing env env' w :
  strict w →
  let r := initializeTables env w in
  let r' := initializeTables env' (world r) in
  (∃ message, outcome r = Thrown message)
  ∧ (∃ message, outcome r' = Thrown message)
  ∧ stored_row (world r) = stored_row w
  ∧ stored_row (world r') = stored_row w
  ∧ rate_limits_table (database (world r')) = rate_limits_table (database w)
  ∧ (connects env w = true → faults w = [] →
     outcome r = Thrown "SQLITE_ERROR"
     ∧ events r = [Executed CreateStatsTable true;
                   Executed SelectStatsId false]).
Proof.
  intros H. cbv zeta.
  destruct (initializeTables_strict env w H) as (Hout & Hrow & Ht & H1).
  destruct (initializeTables_strict env' _ H1) as (Hout' & Hrow' & Ht' & _).
  split; [exact Hout |]. split; [exact Hout' |]. split; [exact Hrow |].
  split; [congruence |]. split; [congruence |].
  unfold connects, strict in *. intros Hc Hf. unfold initializeTables.
  js_simp; destruct (client w); js_simp;
    [| destruct (String.eqb (DATABASE_URL env) ""); [discriminate Hc |];
       destruct (truthy_string (DATABASE_AUTH_TOKEN env)); [| discriminate Hc];
       cbn [negb orb andb] in *; apply bool_decide_eq_true in Hc; rewrite Hc;
       js_simp].
  all: js_strict H; repeat (js_known; js_simp); try done.
Qed.

Lemma initializeTables_seeds_nothing_witness :
  let r := initializeTables example_env libsql_world in
  let r' := initializeTables example_env (world r) in
  outcome r = Thrown "SQLITE_ERROR"
  ∧ outcome r' = Thrown "SQLITE_ERROR"
  ∧ stored_row (world r') = None
  ∧ database (world r') = mkDatabase (Some ∅) None libsql_platform.
Proof.
  cbv zeta.
  destruct (initializeTables_seeds_nothing example_env example_env libsql_world)
    as (_ & _ & _ & Hrow & _ & Hrun).
  - reflexivity.
  - destruct Hrun as [Hout _]; [reflexivity | reflexivity |].
    split; [exact Hout |]. split; [vm_compute; reflexivity |].
    split; [exact Hrow |]. vm_compute. reflexivity.
Defined.

(** C2.  Where the store reads a double-quoted token as the name of a
    column only, as the libsql of the package does, a POST /check is not
    counted at all: the schema initialisation throws before the stats
    middleware runs, the request is answered with status 500 and the error
    "Database error", and [total_requests] is what it was, where the claim
    has it raised by 1. *)
Theorem check_requests_are_not_counted get JSON_parse api c w :
  route c = POST_check →
  strict w →
  let r := app get JSON_parse api c w in
  (∃ details,
     outcome r = Returned (json (body_error_details "Database error" details) 500))
  ∧ stored_total_requests (world r) = stored_total_requests w
  ∧ ∀ updates ok, ¬ In (Executed (UpdateStats updates) ok) (events r).
Proof.
  intros _ H. cbv zeta.
  destruct (app_strict get JSON_parse api c w H) as (Hout & Hrow & _ & Hev).
  split; [exact Hout |]. split.
  - unfold stored_total_requests, stored_row in *. by rewrite Hrow.
  - rewrite Hev. intros updates ok.
    unfold initializeTables. unfold strict in H. js_strict H.
    all: cbn [In]; intuition discriminate.
Qed.

Lemma check_requests_are_not_counted_witness :
  let r := app own_property parse_empty_array mock_api
             (post_check ["good.com"]) libsql_world in
  outcome r =
    Returned (json (body_error_details "Database error" "SQLITE_ERROR") 500)
  ∧ stored_total_requests (world r) = None.
Proof.
  cbv zeta.
  destruct (check_requests_are_not_counted own_property parse_empty_array
              mock_api (post_check ["good.com"]) libsql_world)
    as (_ & Hcount & _).
  - reflexivity.
  - reflexivity.
  - split; [vm_compute; reflexivity | exact Hcount].
Defined.

Lemma check_handler_empty_status get api c w body st :
  req_json c = Some (domains_array []) →
  outcome (check_handler get api c w) = Returned (json body st) →
  st = 200 ∨ st = 429 ∨ st = 500.
Proof.
  intros Hreq. rewrite (check_handler_run get api c w [] Hreq) by (cbn; lia).
  destruct (checkRateLimit _ _ _ _ _ w) as [[res|e] w1 ev1];
    [| intros [= <- <-]; auto].
  destruct (allowed res); [| intros [= <- <-]; auto].
  destruct (check_loop _ _ _ _ _ _ w1) as [[tally|e] w2 ev2];
    [| intros [= <- <-]; auto].
  destruct (incrementStats _ _ w2) as [[[]|e] w3 ev3];
    intros [= <- <-]; auto.
Qed.

(** C4.  A POST of an empty array is never answered with status 400: the
    handler has no guard for it and hands it to the rate limiter.  Where
    the store reads a double-quoted token as the name of a column only, as
    the libsql of the package does, the request does not get that far
    either: it is answered with status 500 and the error "Database error". *)
Theorem empty_check_is_not_refused get JSON_parse api c w :
  route c = POST_check →
  req_json c = Some (domains_array []) →
  let r := app get JSON_parse api c w in
  (∃ body st, outcome r = Returned (json body st) ∧ st ≠ 400)
  ∧ (strict w →
     ∃ details,
       outcome r =
         Returned (json (body_error_details "Database error" details) 500)).
Proof.
  intros Hroute Hreq. cbv zeta. split; [| intros H; by apply app_strict].
  rewrite app_check_run by done.
  destruct (initializeTables _ w) as [[[]|e] w1 ev1];
    [| eexists _, _; split; [reflexivity | done]].
  destruct (incrementStats _ _ w1) as [o2 w2 ev2].
  pose proof (check_handler_empty_status get api c w2) as Hst.
  destruct (check_handler get api c w2) as [[[body st]|e] w3 ev3];
    cbn [outcome] in *; eexists _, _; (split; [reflexivity |]); [| done].
  destruct (Hst body st Hreq eq_refl) as [-> | [-> | ->]]; done.
Qed.

Lemma empty_check_is_not_refused_witness :
  outcome (app own_property parse_empty_array mock_api (post_check [])
             libsql_world)
  = Returned (json (body_error_details "Database error" "SQLITE_ERROR") 500).
Proof.
  destruct (empty_check_is_not_refused own_property parse_empty_array mock_api
              (post_check []) libsql_world) as [_ Hstrict].
  - reflexivity.
  - reflexivity.
  - destruct Hstrict as [details Hout]; [reflexivity |].
    rewrite Hout. vm_compute in Hout. injection Hout as ->. reflexivity.
Defined.

(** C3.  Every response that carries results has exactly one result per
    submitted domain, in the order of the domains and with the submitted
    string as [originalUrl], and the loop of the handler produces such
    results for every list, whatever the lookup service answers.  But where
    the store reads a double-quoted token as the name of a column only, as
    the libsql of the package does, no request is answered with results:
    the answer to a valid request is status 500 with the error
    "Database error". *)
Theorem check_results_where_served get JSON_parse api c w domains :
  route c = POST_check →
  req_json c = Some (domains_array domains) →
  (∀ rs rem rt st,
     outcome (app get JSON_parse api c w) =
       Returned (json (body_results rs rem rt) st) →
     length rs = length domains
     ∧ map DomainCheckResult.originalUrl rs = domains
     ∧ ∀ (i : nat) domain,
         domains !! i = Some domain →
         DomainCheckResult.originalUrl <$> rs !! i = Some domain)
  ∧ (∃ tally ev,
       check_loop get api (length domains) 0 domains (mkTally [] 0 0 0 0) w =
         mkRun (Returned tally) w ev
       ∧ map DomainCheckResult.originalUrl (results tally) = domains)
  ∧ (strict w →
     ∃ details,
       outcome (app get JSON_parse api c w) =
         Returned (json (body_error_details "Database error" details) 500)).
Proof.
  intros Hroute Hreq. split; [| split].
  - intros rs rem rt st Hout.
    pose proof (app_check_results _ _ _ _ _ _ _ _ _ _ Hroute Hreq Hout) as Hurls.
    split; [by rewrite <- Hurls, length_map |]. split; [exact Hurls |].
    intros i domain Hi. rewrite <- Hurls, lookup_map in Hi. exact Hi.
  - destruct (check_loop_originalUrl get api domains (length domains) 0%nat
                (mkTally [] 0 0 0 0) w) as (tally & ev & Hloop & Hurls);
      [unfold batchSize; lia |].
    exists tally, ev. split; [exact Hloop |]. by rewrite Hurls, drop_0.
  - intros H. by apply app_strict.
Qed.

Lemma check_results_where_served_witness :
  outcome (app own_property parse_empty_array mock_api
             (post_check ["good.com"; "bad.com"]) libsql_world)
  = Returned (json (body_error_details "Database error" "SQLITE_ERROR") 500).
Proof.
  destruct (check_results_where_served own_property parse_empty_array mock_api
              (post_check ["good.com"; "bad.com"]) libsql_world
              ["good.com"; "bad.com"]) as (_ & _ & Hstrict).
  - reflexivity.
  - reflexivity.
  - destruct Hstrict as [details Hout]; [reflexivity |].
    rewrite Hout. vm_compute in Hout. injection Hout as ->. reflexivity.
Defined.

Lemma getStats_unique_users env w stats :
  no_user_recorded (database w) →
  outcome (getStats env w) = Returned stats →
  unique_users stats = "[]".
Proof.
  unfold no_user_recorded, getStats. intros Hd. js_run.
  all: intros [= <-]; cbn [unique_users default_row]; try reflexivity;
    try discriminate.
  all: match goal with
       | Hr : ?t !! "global" = Some ?row |- _ =>
           rewrite (Hd t "global" row eq_refl Hr)
       end; reflexivity.
Qed.

(** C8.  What GET /stats/data puts under [uniqueUsers] is never a count:
    whenever the request is answered with the statistics, it is the value
    that [JSON.parse] returns for the stored text, the array itself, which
    for the text "[]" that the program seeds and never changes is the empty
    array.  And where the store reads a double-quoted token as the name of
    a column only, as the libsql of the package does, the request is not
    answered with statistics at all, but with status 500 and the error
    "Database error". *)
Theorem stats_data_uniqueUsers_is_parsed get JSON_parse api c w :
  route c = GET_stats_data →
  no_user_recorded (database w) →
  let r := app get JSON_parse api c w in
  (∀ tr tdc b nb e lr uniqueUsers st,
     outcome r = Returned (json (body_stats tr tdc b nb e lr uniqueUsers) st) →
     JSON_parse "[]" = Some uniqueUsers)
  ∧ (strict w →
     ∃ details,
       outcome r =
         Returned (json (body_error_details "Database error" details) 500)).
Proof.
  intros Hroute Hd. cbv zeta. split; [| intros H; by apply app_strict].
  intros tr tdc b nb e lr uu st. rewrite app_stats_data_run by done.
  pose proof (preserves_initializeTables no_user_recorded (λ _, True)
                (λ s d d' rows _, run_stmt_no_user_recorded s d d' rows)
                (getEnvVars (req_env c)) I I (λ _, I) I w Hd) as Hd1.
  destruct (initializeTables _ w) as [[[]|e'] w1 ev1]; [| discriminate].
  cbn [world] in Hd1. unfold stats_data_handler, try_catch, bind.
  pose proof (getStats_unique_users (getEnvVars (req_env c)) w1) as Huu.
  destruct (getStats _ w1) as [[stats|e'] w2 ev2]; [| discriminate].
  rewrite (Huu stats Hd1 eq_refl).
  destruct (JSON_parse "[]") as [v|]; [| discriminate].
  cbn [ret outcome]. by intros [= _ _ _ _ _ _ <- _].
Qed.

Lemma stats_data_uniqueUsers_is_parsed_witness :
  outcome (app own_property parse_empty_array mock_api get_stats_data
             libsql_world)
  = Returned (json (body_error_details "Database error" "SQLITE_ERROR") 500).
Proof.
  destruct (stats_data_uniqueUsers_is_parsed own_property parse_empty_array
              mock_api get_stats_data libsql_world) as [_ Hstrict].
  - reflexivity.
  - intros ts id row Hts. discriminate Hts.
  - destruct Hstrict as [details Hout]; [reflexivity |].
    rewrite Hout. vm_compute in Hout. injection Hout as ->. reflexivity.
Defined.

(** * The rate limiter, version by version *)

Ltac spliced_unfold :=
  unfold Spliced.checkRateLimit, Spliced.execute_spliced, Spliced.run_spliced.

(** Where the ip is plain and double-quoted tokens are read as strings, the
    statements of src/db.ts are read as those of src/unnamed/part_001. *)
Lemma spliced_checkRateLimit_read_as_text reads_as env ip d maxD win w :
  Spliced.plain ip = true →
  double_quoted_strings (platform (database w)) = true →
  Spliced.checkRateLimit reads_as env ip d maxD win w =
  checkRateLimit env ip d maxD win w.
Proof.
  intros Hp Hq. spliced_unfold. unfold checkRateLimit. rewrite Hp.
  js_simp; repeat (first [rewrite Hq | js_case]; js_simp); reflexivity.
Qed.

(** C5.  A client whose entry is still inside its window and whose request
    would take the total over [maxDomains].  With its arguments bound, as in
    src/unnamed/part_001, [checkRateLimit] refuses it as the claim says, and
    leaves its entry as it was.  src/db.ts writes the ip between double
    quotes: where the store reads a double-quoted token as the name of a
    column only, as the libsql of the package does, its SELECT is rejected
    for a plain ip and the call fails open: the client is let through, with
    [allowed = true], [remaining = maxDomains - domainCount] and
    [resetTime = now + window]. *)
Theorem checkRateLimit_refusal_by_version reads_as env ip d maxD win w t usage :
  client w = true →
  healthy 2 (faults w) = true →
  rate_limits_table (database w) = Some t →
  t !! ip = Some usage →
  clock w - window win ≤ timestamp usage →
  maxD < count usage + d →
  (let r := checkRateLimit env ip d maxD win w in
   outcome r =
     Returned (mkRateLimitResult false (maxD - count usage)
                 (timestamp usage + window win))
   ∧ rate_limits_table (database (world r)) =
       Some (purge (clock w - window win) t)
   ∧ purge (clock w - window win) t !! ip = Some usage)
  ∧ (Spliced.plain ip = true → strict w →
     let r := Spliced.checkRateLimit reads_as env ip d maxD win w in
     outcome r =
       Returned (mkRateLimitResult true (maxD - d) (clock w + window win))
     ∧ events r =
         [Executed (DeleteExpiredRateLimits (clock w - window win)) true;
          Executed (SelectRateLimit ip) false]).
Proof.
  intros Hc Hh Ht Hu Hlive Hover. split.
  - destruct (checkRateLimit_refuses_bound env ip d maxD win w t usage
                Hc Hh Ht Hu Hlive Hover) as (Hout & Hdb & Hp & _).
    cbv zeta. rewrite Hout, Hdb. done.
  - unfold strict, window. intros Hplain Hq. cbv zeta. spliced_unfold.
    rewrite Hplain. js_simp. rewrite Hc. js_simp. rewrite Ht. js_simp.
    destruct (faults w) as [|[|] [|[|] fs]]; js_simp; try discriminate;
      rewrite ?Hq; js_simp; done.
Qed.

Lemma checkRateLimit_refusal_by_version_witness :
  let w := mkWorld (mkDatabase None
                      (Some {["203.0.113.7" := mkRateLimit 5 1000]})
                      libsql_platform) true [] 2000 in
  outcome (checkRateLimit example_env "203.0.113.7" 996 1000 10 w)
  = Returned (mkRateLimitResult false 995 601000)
  ∧ outcome (Spliced.checkRateLimit (λ _ _, None) example_env "203.0.113.7"
               996 1000 10 w)
    = Returned (mkRateLimitResult true 4 602000).
Proof.
  cbv zeta.
  destruct (checkRateLimit_refusal_by_version (λ _ _, None) example_env
              "203.0.113.7" 996 1000 10
              (mkWorld (mkDatabase None
                          (Some {["203.0.113.7" := mkRateLimit 5 1000]})
                          libsql_platform) true [] 2000)
              {["203.0.113.7" := mkRateLimit 5 1000]} (mkRateLimit 5 1000))
    as [(Hbound & _) Hspliced].
  - reflexivity.
  - reflexivity.
  - reflexivity.
  - apply lookup_singleton_eq.
  - vm_compute. discriminate.
  - vm_compute. reflexivity.
  - destruct Hspliced as [Hout _]; [reflexivity | reflexivity |].
    split; [exact Hbound | exact Hout].
Defined.

(** C1, version by version.  A client whose entry is still inside its
    window and whose request fits: where the store takes the statements, the
    total is stored as the count, the answer has [allowed = true] and
    [remaining = max - total], and the reset time answered is the stored
    timestamp plus the window.  The versions differ in the timestamp they
    store.  With its arguments bound,
    as in src/unnamed/part_001, and in src/db.ts where its statements are
    read as those, the timestamp becomes [now]: the window starts again and
    the answer is [resetTime = now + window].  The key-value backed version
    keeps the timestamp and answers [resetTime = entry.timestamp + window]. *)
Theorem checkRateLimit_top_up_by_version
    reads_as env ip d maxD win w t usage kw kusage :
  client w = true →
  healthy 3 (faults w) = true →
  rate_limits_table (database w) = Some t →
  t !! ip = Some usage →
  clock w - window win ≤ timestamp usage →
  count usage + d ≤ maxD →
  KV.rateLimitCache kw !! kv_key ip = Some kusage →
  KV.clock kw - window KV.RATE_LIMIT_WINDOW_MINUTES ≤ KV.timestamp kusage →
  KV.count kusage + d ≤ KV.RATE_LIMIT_MAX_DOMAINS →
  healthy 1 (KV.faults kw) = true →
  (let r := checkRateLimit env ip d maxD win w in
   outcome r =
     Returned (mkRateLimitResult true (maxD - (count usage + d))
                 (clock w + window win))
   ∧ stored_rate_limit ip (world r) =
       Some (mkRateLimit (count usage + d) (clock w)))
  ∧ (Spliced.plain ip = true →
     double_quoted_strings (platform (database w)) = true →
     Spliced.checkRateLimit reads_as env ip d maxD win w =
     checkRateLimit env ip d maxD win w)
  ∧ (let r := KV.checkRateLimit ip d kw in
     outcome r =
       Returned (KV.mkRateLimitResult true
                   (KV.RATE_LIMIT_MAX_DOMAINS - (KV.count kusage + d))
                   (KV.timestamp kusage
                    + window KV.RATE_LIMIT_WINDOW_MINUTES))
     ∧ KV.rateLimitCache (world r) !! kv_key ip =
         Some (KV.mkRateLimitData (KV.count kusage + d) (KV.timestamp kusage))).
Proof.
  intros Hc Hh Ht Hu Hlive Hfits Hku Hklive Hkfits Hkh. split; [| split].
  - destruct (checkRateLimit_top_up_bound env ip d maxD win w t usage
                Hc Hh Ht Hu Hlive Hfits) as (Hout & (t' & Ht' & Hip & _) & _).
    cbv zeta. split; [exact Hout |]. unfold stored_rate_limit.
    by rewrite Ht'.
  - apply spliced_checkRateLimit_read_as_text.
  - by apply kv_checkRateLimit_top_up.
Qed.

Lemma checkRateLimit_top_up_by_version_witness :
  stored_rate_limit "203.0.113.7"
    (world (checkRateLimit example_env "203.0.113.7" 3 1000 10 world_with_entry))
  = Some (mkRateLimit 8 2000)
  ∧ KV.rateLimitCache
      (world (KV.checkRateLimit "203.0.113.7" 3 kv_world_with_entry))
    !! kv_key "203.0.113.7"
    = Some (KV.mkRateLimitData 8 1000).
Proof.
  destruct (checkRateLimit_top_up_by_version (λ _ _, None) example_env
              "203.0.113.7" 3 1000 10 world_with_entry
              {["203.0.113.7" := mkRateLimit 5 1000]} (mkRateLimit 5 1000)
              kv_world_with_entry (KV.mkRateLimitData 5 1000))
    as ((_ & Hsql) & _ & (_ & Hkv)).
  - reflexivity.
  - reflexivity.
  - reflexivity.
  - apply lookup_singleton_eq.
  - vm_compute. discriminate.
  - vm_compute. discriminate.
  - reflexivity.
  - vm_compute. discriminate.
  - vm_compute. discriminate.
  - reflexivity.
  - split; [exact Hsql | exact Hkv].
Defined.

(** C7, as stated: false.  A body that is a JSON array is no JSON object,
    yet [typeof] calls it an object: the request is not taken as failed, and
    each of the two domains gets the status "Error: Invalid response", not
    "Error: API request failed". *)
Lemma checkBatch_array_body_is_read :
  ¬ batch_failure_as_stated own_property
      (λ _ _, Response true "OK" (Some (VArray []))) 0
      ["a.com"; "b.com"] fresh_world.
Proof.
  unfold batch_failure_as_stated. intros Hclaim.
  specialize (Hclaim eq_refl). vm_compute in Hclaim. discriminate Hclaim.
Qed.

(** * Further properties of the statements and the store *)

(** X20.  The rate limiter of src/db.ts lets every plain client through
    where the store reads a double-quoted token as the name of a column
    only, as the libsql of the package does: whatever [rate_limits] holds,
    a call that returns answers [allowed = true],
    [remaining = maxDomains - domainCount] and [resetTime = now + window],
    and no count is written. *)
Theorem spliced_checkRateLimit_never_refuses reads_as env ip d maxD win w :
  Spliced.plain ip = true →
  strict w →
  let r := Spliced.checkRateLimit reads_as env ip d maxD win w in
  (∀ res, outcome r = Returned res →
          res = mkRateLimitResult true (maxD - d) (clock w + window win))
  ∧ (∀ s, In (Executed s true) (events r) → writes_no_count s).
Proof.
  unfold strict, window. intros Hp Hq. cbv zeta. spliced_unfold. rewrite Hp.
  js_simp; repeat (first [rewrite Hq | js_case]; js_simp).
  all: split; [intros res [= <-]; reflexivity |].
  all: intros stmt Hin; cbn [In] in Hin;
    repeat (destruct Hin as [Hin | Hin];
            [first [discriminate Hin | by injection Hin as <-] |]);
    destruct Hin.
Qed.

Lemma spliced_checkRateLimit_never_refuses_witness :
  outcome (Spliced.checkRateLimit (λ _ _, None) example_env "203.0.113.7"
             5000 1000 10
             (mkWorld (mkDatabase None (Some ∅) libsql_platform) true [] 2000))
  = Returned (mkRateLimitResult true (-4000) 602000).
Proof.
  destruct (spliced_checkRateLimit_never_refuses (λ _ _, None) example_env
              "203.0.113.7" 5000 1000 10
              (mkWorld (mkDatabase None (Some ∅) libsql_platform) true [] 2000))
    as [Hres _].
  - reflexivity.
  - reflexivity.
  - vm_compute. reflexivity.
Defined.

(** X19.  The handler of POST /check answers a [domains] that is truthy and
    no array, or an array of more than 100 domains, with status 400 and the
    matching error text, at once: it leaves the world as it is and issues
    no statement and no lookup. *)
Theorem invalid_check_is_refused get api c w message :
  (req_json c = Some domains_not_array
   ∧ message = "Invalid request: domains must be an array")
  ∨ (∃ domains,
       req_json c = Some (domains_array domains)
       ∧ (100 < length domains)%nat
       ∧ message = "Maximum 100 domains per request") →
  check_handler get api c w =
    mkRun (Returned (json (body_error message) 400)) w [].
Proof.
  unfold check_handler.
  intros [[-> ->] | (domains & -> & Hlen & ->)]; [reflexivity |].
  assert (Hmax : (MAX_DOMAINS_PER_REQUEST <? Z.of_nat (length domains)) = true)
    by (apply Z.ltb_lt; unfold MAX_DOMAINS_PER_REQUEST; lia).
  by rewrite Hmax.
Qed.

Lemma invalid_check_is_refused_witness :
  check_handler own_property mock_api (post_check (repeat "good.com" 101))
    libsql_world =
    mkRun (Returned (json (body_error "Maximum 100 domains per request") 400))
      libsql_world [].
Proof.
  apply invalid_check_is_refused. right. exists (repeat "good.com" 101).
  repeat split. apply Nat.ltb_lt. reflexivity.
Defined.

(** X6.  Where the store reads a double-quoted token as the name of a
    column only, as the libsql of the package does, [incrementStats] with
    something to add never returns: it throws, and the tables are as they
    were. *)
Theorem incrementStats_strict env delta w :
  strict w →
  idle delta = false →
  let r := incrementStats env delta w in
  (∃ message, outcome r = Thrown message)
  ∧ database (world r) = database w.
Proof.
  unfold strict. intros Hq Hidle. cbv zeta. unfold incrementStats.
  fold (stats_updates delta).
  assert (Hne : (0 <? length (stats_updates delta))%nat = true).
  { destruct (stats_updates delta) eqn:Hu; [| reflexivity].
    apply stats_updates_idle in Hu. congruence. }
  rewrite Hne. js_strict Hq.
  all: split; [by eexists | reflexivity].
Qed.

Lemma incrementStats_strict_witness :
  outcome (incrementStats example_env
             (mkStatsDelta (Some 1) None None None None)
             (mkWorld (mkDatabase (Some ∅) (Some ∅) libsql_platform) true []
                5000))
  = Thrown "Failed to increment stats: SQLITE_ERROR".
Proof.
  destruct (incrementStats_strict example_env
              (mkStatsDelta (Some 1) None None None None)
              (mkWorld (mkDatabase (Some ∅) (Some ∅) libsql_platform) true []
                 5000)) as [[message Hout] _].
  - reflexivity.
  - reflexivity.
  - rewrite Hout. vm_compute in Hout. injection Hout as ->. reflexivity.
Defined.

(** X10.  Where the store reads a double-quoted token as the name of a
    column only, [getStats] never returns: it throws, and the tables
    are as they were. *)
Theorem getStats_strict env w :
  strict w →
  let r := getStats env w in
  (∃ message, outcome r = Thrown message)
  ∧ database (world r) = database w.
Proof.
  unfold strict. intros Hq. cbv zeta. unfold getStats. js_strict Hq.
  all: split; [by eexists | reflexivity].
Qed.

Lemma getStats_strict_witness :
  outcome (getStats example_env
             (mkWorld (mkDatabase (Some ∅) (Some ∅) libsql_platform) true []
                5000))
  = Thrown "Failed to get stats: SQLITE_ERROR".
Proof.
  destruct (getStats_strict example_env
              (mkWorld (mkDatabase (Some ∅) (Some ∅) libsql_platform) true []
                 5000)) as [[message Hout] _].
  - reflexivity.
  - rewrite Hout. vm_compute in Hout. injection Hout as ->. reflexivity.
Defined.
